(** * The on-chain subsystem of The-Template ([core/onchain.py], [core/bot.py])

    A shallow embedding of the [Onchain] class and of [Bot.__exit__].
    Python integers are [Z], Python floats are IEEE-754 binary64 values
    (the Standard Library's [spec_float]), dictionaries are [gmap]s with
    string keys and the set of approval pairs is a [gset].  Every effect of
    the code (JSON-RPC request, HTTP request, random draw, log line,
    signature) is appended to a trace, and the answers of the outside world
    are looked up in a [World] at the position of the request in the trace,
    so that two identical requests may receive different answers. *)

From Stdlib Require Import ZArith Floats.SpecFloat.
From stdpp Require Import gmap strings list sorting.

Local Open Scope Z_scope.

(** ** Python exceptions and results *)

Inductive ExcType :=
| ValueError
| AttributeError
| KeyError
| IndexError
| TypeError
| OverflowError
| TimeoutError
| Web3Exception
| RequestException
| OtherException (name : string) (timeout_subclass : bool).

(** [issubclass(exc_type, TimeoutError)] *)
Definition issubclass_TimeoutError (t : ExcType) : bool :=
  match t with
  | TimeoutError => true
  | OtherException _ b => b
  | _ => false
  end.

Record Exc := mkExc { exc_type : ExcType; exc_val : string }.

Inductive Result (A : Type) :=
| Ok (a : A)
| Raise (e : Exc).
Arguments Ok {A} a.
Arguments Raise {A} e.

Definition is_Ok {A} (r : Result A) : bool :=
  match r with Ok _ => true | Raise _ => false end.

(** ** Python floats *)

Module PyFloat.

Abbreviation float := spec_float.

Definition prec : Z := 53.
Definition emax : Z := 1024.

(** [float(z)]: the nearest binary64, [OverflowError] beyond its range. *)
Definition of_int (z : Z) : Result float :=
  match binary_normalize prec emax z 0 false with
  | S754_infinity _ | S754_nan =>
      Raise (mkExc OverflowError "int too large to convert to float")
  | f => Ok f
  end.

Definition mul : float -> float -> float := SFmul prec emax.

(** [int(f)]: truncation towards zero. *)
Definition to_int (f : float) : Result Z :=
  match f with
  | S754_zero _ => Ok 0
  | S754_finite s m e =>
      let a := match e with
               | Z0 => Zpos m
               | Zpos _ => Z.shiftl (Zpos m) e
               | Zneg p => Z.shiftr (Zpos m) (Zpos p)
               end in
      Ok (if s then - a else a)
  | S754_infinity _ =>
      Raise (mkExc OverflowError "cannot convert float infinity to integer")
  | S754_nan => Raise (mkExc ValueError "cannot convert float NaN to integer")
  end.

(** [a / b] on two ints: the correctly rounded quotient. *)
Definition int_truediv (a b : Z) : Result float :=
  match b, a with
  | Z0, _ => Raise (mkExc (OtherException "ZeroDivisionError" false) "division by zero")
  | _, Z0 => Ok (S754_zero (b <? 0))
  | _, _ =>
      let '(q, e, l) :=
        SFdiv_core_binary prec emax (Z.abs a) 0 (Z.abs b) 0 in
      match binary_round_aux prec emax (xorb (a <? 0) (b <? 0)) q e l with
      | S754_infinity _ | S754_nan =>
          Raise (mkExc OverflowError "integer division result too large for a float")
      | f => Ok f
      end
  end.

(** A decimal literal with two digits after the point, such as [1.03]. *)
Definition literal (hundredths : Z) : float :=
  SFdiv prec emax (binary_normalize prec emax hundredths 0 false)
                  (binary_normalize prec emax 100 0 false).

(** [f > z] for a float and an int, compared exactly as Python does. *)
Definition gt_int (f : float) (z : Z) : bool :=
  match f with
  | S754_zero _ => z <? 0
  | S754_infinity s => negb s
  | S754_nan => false
  | S754_finite s m e =>
      let v := if s then Zneg m else Zpos m in
      match e with
      | Zneg p => z * 2 ^ (Zpos p) <? v
      | _ => z <? v * 2 ^ e
      end
  end.

End PyFloat.
Import PyFloat.

(** ** Data model *)

Abbreviation Address := string.

(** Calldata of the contract calls the code builds or sends. *)
Inductive CallData :=
| TransferCall (to : Address) (amount : Z)          (* transfer(to, amount) *)
| ApproveCall (spender : Address) (amount : Z).     (* approve(spender, amount) *)

(** Values stored in a [tx_params] dictionary. *)
Inductive PyVal :=
| VInt (z : Z)
| VStr (s : string)
| VData (d : CallData).

(** [tx_params]: a Python dict with string keys. *)
Abbreviation TxParams := (gmap string PyVal).

(** A bare Python number, as accepted for amounts and returned for gas prices. *)
Inductive PyNum :=
| NInt (z : Z)
| NFloat (f : float).

(** Chain objects live in a store and are referred to by identity. *)
Abbreviation ChainRef := nat.

Record Chain := mkChain {
  chain_name : string;
  chain_id : Z;
  chain_native_token : string;
  is_eip1559 : option bool;          (* None: not determined yet *)
  multiplier : float
}.

Definition set_is_eip1559 (b : bool) (c : Chain) : Chain :=
  mkChain (chain_name c) (chain_id c) (chain_native_token c) (Some b) (multiplier c).

#[global] Instance Chain_inhabited : Inhabited Chain :=
  populate (mkChain "" 0 "" None (S754_zero false)).

Inductive TokenTypes := NATIVE | ERC20.

Record Token := mkToken {
  Token_symbol : string;
  Token_address : Address;
  Token_chain : ChainRef;
  Token_decimals : Z;
  type_token : TokenTypes
}.

(** Modelled from the spec: [models.amount.Amount] is missing from the
    sources; the spec describes it as an integer minor-unit quantity
    ([wei]) together with a decimals count. *)
Record Amount := mkAmount { wei : Z; decimals : Z }.

(** [Amount(x, wei=True)] and [Amount(x, decimals=d, wei=True)] *)
Definition Amount_wei (x : Z) (d : option Z) : Amount :=
  mkAmount x (default 18 d).

Record Account := mkAccount {
  profile_number : Z;
  address : Address;
  private_key : option string
}.

(** The [Onchain] object: its account and the chain it is connected to. *)
Record Onchain := mkOnchain { account : Account; chain : ChainRef }.

(** The token argument of the public methods: [Token | str | None]. *)
Inductive TokenArg :=
| TokNone
| TokObj (t : Token)
| TokStr (a : Address).

(** The amount argument of the public methods: [Amount | int | float | None]. *)
Inductive AmountArg :=
| AmtNone
| AmtObj (a : Amount)
| AmtNum (n : PyNum).

(** The spender argument of [approve]: [str | ContractRaw]. *)
Inductive SpenderArg :=
| SpStr (a : Address)
| SpContractRaw (a : Address).

(** [w3.eth.fee_history(...)]: a dict in which either list may be absent. *)
Record FeeHistory := mkFeeHistory {
  baseFeePerGas : option (list Z);
  reward : option (list (list Z));
  other_keys : bool                  (* oldestBlock, gasUsedRatio, ... present *)
}.

(** A log entry returned by the block explorer. *)
Record ApprovalLog := mkLog { log_address : Address; log_topics : list string }.

(** ** Effects *)

(** Requests sent to the JSON-RPC node of a chain. *)
Inductive RpcCall :=
| Rpc_fee_history (blocks : Z) (newest : string) (percentiles : list Z)
| Rpc_gas_price
| Rpc_estimate_gas (tx : TxParams)
| Rpc_get_transaction_count (a : Address)
| Rpc_get_balance (a : Address)
| Rpc_decimals (contract : Address)
| Rpc_symbol (contract : Address)
| Rpc_balanceOf (contract : Address) (owner : Address)
| Rpc_allowance (contract : Address) (owner spender : Address)
| Rpc_getL1Fee (data : PyVal)
| Rpc_send_raw_transaction (tx : TxParams)
| Rpc_wait_for_transaction_receipt (tx_hash : string).

Inductive LogLevel := INFO | SUCCESS | WARNING | ERROR | CRITICAL.

Inductive LogMsg :=
| Msg_token_on_other_chain (token_chain active_chain : string)
| Msg_not_enough_sending_all (profile : Z) (native : string) (balance amount : Amount) (to : PyVal)
| Msg_not_enough (profile : Z)
| Msg_tx_sent (profile : Z) (amount : Amount) (symbol : string) (to : Address) (tx_hash : string)
| Msg_approve_sent (profile : Z) (amount : Amount) (symbol : string) (spender : Address)
| Msg_no_etherscan_key
| Msg_no_approval_logs
| Msg_account_done (profile : Z)
| Msg_account_timeout (profile : Z)
| Msg_account_no_page (profile : Z) (exc : string)
| Msg_account_failed (profile : Z) (exc : string).

Inductive Event :=
| EvRpc (c : ChainRef) (call : RpcCall)
| EvHttp_getLogs (chainid : Z) (owner : Address)
| EvRandom (range : option (float * float))
| EvSign (tx : TxParams)
| EvLog (lvl : LogLevel) (msg : LogMsg)
| EvSleep
| EvCloseBrowser.

(** The outside world and the parts of the repository that are not in the
    sources.  An answer [None] means that the request raises.  The [nat]
    argument is the number of effects that happened before the request. *)
Record World := mkWorld {
  rpc_fee_history : ChainRef -> nat -> option FeeHistory;
  rpc_gas_price : ChainRef -> nat -> option Z;
  rpc_estimate_gas : ChainRef -> nat -> TxParams -> option Z;
  rpc_get_transaction_count : ChainRef -> nat -> Address -> option Z;
  rpc_get_balance : ChainRef -> nat -> Address -> option Z;
  rpc_decimals : ChainRef -> nat -> Address -> option Z;
  rpc_symbol : ChainRef -> nat -> Address -> option string;
  rpc_balanceOf : ChainRef -> nat -> Address -> Address -> option Z;
  rpc_allowance : ChainRef -> nat -> Address -> Address -> Address -> option Z;
  rpc_getL1Fee : ChainRef -> nat -> PyVal -> option Z;
  rpc_send_raw_transaction : ChainRef -> nat -> TxParams -> option string;
  rpc_wait_for_transaction_receipt : ChainRef -> nat -> string -> option string;
  (* eth_account: signing fails on a missing or malformed key *)
  sign_transaction : TxParams -> option string -> bool;
  (* utils.get_response on the block-explorer URL: the 'result' list, if any *)
  http_getLogs : nat -> Z -> Address -> option (option (list ApprovalLog));
  (* utils.get_multiplayer: one random draw; None stands for its default range *)
  get_multiplayer : nat -> option (float * float) -> float;
  (* utils.to_checksum on a well-formed address *)
  to_checksum : Address -> Address;
  (* models.token.Token(symbol, address, chain, decimals).type_token *)
  token_type_of : Address -> TokenTypes;
  (* Amount(number, decimals=d).wei for a bare int or float *)
  number_to_wei : PyNum -> Z -> Z;
  (* config *)
  ETHERSCAN_API_KEY : string;
  gas_price_limit : Z;
  (* Ads.close_browser *)
  close_browser : nat -> bool
}.

Record State := mkState {
  trace : list Event;                (* most recent effect first *)
  chains : gmap nat Chain;           (* the Chain objects *)
  NATIVE_TOKEN : Token               (* Tokens.NATIVE_TOKEN, one shared object *)
}.

Definition tick (s : State) : nat := length (trace s).

(** ** The state-and-exception monad *)

Definition M (A : Type) : Type := State -> Result A * State.

Definition ret {A} (a : A) : M A := fun s => (Ok a, s).

Definition bind {A B} (m : M A) (f : A -> M B) : M B :=
  fun s => match m s with
           | (Ok a, s') => f a s'
           | (Raise e, s') => (Raise e, s')
           end.

Definition raise {A} (t : ExcType) (msg : string) : M A :=
  fun s => (Raise (mkExc t msg), s).

Definition lift {A} (r : Result A) : M A := fun s => (r, s).

(** The state after one more effect. *)
Definition push (e : Event) (s : State) : State :=
  mkState (e :: trace s) (chains s) (NATIVE_TOKEN s).

Definition emit (e : Event) : M unit := fun s => (Ok tt, push e s).

Definition get_tick : M nat := fun s => (Ok (tick s), s).

Definition get_chain (c : ChainRef) : M Chain := fun s => (Ok (chains s !!! c), s).

Definition put_chain (c : ChainRef) (ch : Chain) : M unit :=
  fun s => (Ok tt, mkState (trace s) (<[c := ch]> (chains s)) (NATIVE_TOKEN s)).

Definition get_NATIVE_TOKEN : M Token := fun s => (Ok (NATIVE_TOKEN s), s).

Definition put_NATIVE_TOKEN (t : Token) : M unit :=
  fun s => (Ok tt, mkState (trace s) (chains s) t).

Declare Scope py_scope.
Delimit Scope py_scope with py.
Notation "x <- m ;; k" := (bind m (fun x => k))
  (at level 100, m at next level, right associativity) : py_scope.
Notation "m ;;; k" := (bind m (fun _ => k))
  (at level 100, right associativity) : py_scope.
Local Open Scope py_scope.

(** An answer of the world: [None] raises the library's exception. *)
Definition answer {A} (t : ExcType) (msg : string) (o : option A) : M A :=
  match o with
  | Some a => ret a
  | None => raise t msg
  end.

(** ** [core/onchain.py]: class [Onchain] *)

Section Onchain.

Context (w : World).

(** One round trip to the node of chain [c]. *)
Definition rpc {A} (c : ChainRef) (call : RpcCall)
    (ans : ChainRef -> nat -> option A) : M A :=
  t <- get_tick ;;
  emit (EvRpc c call) ;;;
  answer Web3Exception "rpc request failed" (ans c t).

(** [get_multiplayer(min_mult, max_mult)] *)
Definition random_multiplayer (range : option (float * float)) : M float :=
  t <- get_tick ;;
  emit (EvRandom range) ;;;
  ret (get_multiplayer w t range).

Definition logger (lvl : LogLevel) (msg : LogMsg) : M unit := emit (EvLog lvl msg).

Definition change_chain (self : Onchain) (c : ChainRef) : Onchain :=
  mkOnchain (account self) c.

Definition _get_token_params (self : Onchain) (token_address : Address)
    : M (string * Z) :=
  let token_contract_address := to_checksum w token_address in
  native <- get_NATIVE_TOKEN ;;
  if decide (token_contract_address = Token_address native)
  then ch <- get_chain (chain self) ;;
       ret (chain_native_token ch, Token_decimals native)
  else
    decimals <- rpc (chain self) (Rpc_decimals token_contract_address)
                  (fun c t => rpc_decimals w c t token_contract_address) ;;
    symbol <- rpc (chain self) (Rpc_symbol token_contract_address)
                (fun c t => rpc_symbol w c t token_contract_address) ;;
    ret (symbol, decimals).

(** [Token(symbol, address, self.chain, decimals)] *)
Definition Token_new (self : Onchain) (symbol : string) (a : Address) (d : Z) : Token :=
  mkToken symbol a (chain self) d (token_type_of w a).

Definition _estimate_gas (self : Onchain) (tx_params : TxParams) : M TxParams :=
  estimate <- rpc (chain self) (Rpc_estimate_gas tx_params)
                (fun c t => rpc_estimate_gas w c t tx_params) ;;
  m <- random_multiplayer None ;;
  f <- lift (of_int estimate) ;;
  gas <- lift (to_int (mul f m)) ;;
  ret (<["gas" := VInt gas]> tx_params).

(** The default range of [_multiply]: [min_mult=1.03, max_mult=1.1]. *)
Definition fee_range : float * float := (literal 103, literal 110).
(** The range used for safety margins: [1.1, 1.2]. *)
Definition margin_range : float * float := (literal 110, literal 120).

Definition _multiply (self : Onchain) (value : Z) (range : float * float) : M Z :=
  m <- random_multiplayer (Some range) ;;
  f <- lift (of_int value) ;;
  ch <- get_chain (chain self) ;;
  lift (to_int (mul (mul f m) (multiplier ch))).

(** [any(l)] on a list of ints *)
Definition any (l : list Z) : bool := existsb (fun x => negb (x =? 0)) l.

(** [l[-1]] *)
Definition last_item (l : list Z) : Result Z :=
  match last l with
  | Some x => Ok x
  | None => Raise (mkExc IndexError "list index out of range")
  end.

(** [[fee[0] for fee in rewards if fee[0] != 0]] *)
Fixpoint nonzero_rewards (rewards : list (list Z)) : Result (list Z) :=
  match rewards with
  | [] => Ok []
  | fee :: rest =>
      match fee with
      | [] => Raise (mkExc IndexError "list index out of range")
      | x :: _ =>
          match nonzero_rewards rest with
          | Ok r => Ok (if x =? 0 then r else x :: r)
          | Raise e => Raise e
          end
      end
  end.

(** [l or [0]] *)
Definition or_zero (l : list Z) : list Z :=
  match l with [] => [0] | _ => l end.

(** Lines 141-147 of [_get_fee]: the priority fee picked from the history. *)
Definition median_priority_fee (fee_history : FeeHistory) : Result Z :=
  match nonzero_rewards (default [[0]] (reward fee_history)) with
  | Raise e => Raise e
  | Ok l =>
      let priority_fees := or_zero l in
      let median_index := (length priority_fees / 2)%nat in
      let priority_fees := merge_sort Z.le priority_fees in
      match priority_fees !! median_index with
      | Some x => Ok x
      | None => Raise (mkExc IndexError "list index out of range")
      end
  end.

(** Truth value of the fee-history dict: false when it has no key. *)
Definition FeeHistory_truthy (fh : FeeHistory) : bool :=
  bool_decide (is_Some (baseFeePerGas fh)) || bool_decide (is_Some (reward fh))
  || other_keys fh.

Definition fetch_fee_history (self : Onchain) : M FeeHistory :=
  rpc (chain self) (Rpc_fee_history 20 "latest" [40])
      (fun c t => rpc_fee_history w c t).

Definition _get_fee (self : Onchain) (tx_params : option TxParams) : M TxParams :=
  let tx_params := default ∅ tx_params in
  ch <- get_chain (chain self) ;;
  fee_history <-
    match is_eip1559 ch with
    | None =>
        fee_history <- fetch_fee_history self ;;
        ch <- get_chain (chain self) ;;
        put_chain (chain self)
          (set_is_eip1559 (any (default [0] (baseFeePerGas fee_history))) ch) ;;;
        ret (Some fee_history)
    | Some _ => ret None
    end ;;
  ch <- get_chain (chain self) ;;
  match is_eip1559 ch with
  | Some false =>
      gas_price <- rpc (chain self) Rpc_gas_price (rpc_gas_price w) ;;
      v <- _multiply self gas_price fee_range ;;
      ret (<["gasPrice" := VInt v]> tx_params)
  | _ =>
      fee_history <-
        match fee_history with
        | Some fh => if FeeHistory_truthy fh then ret fh else fetch_fee_history self
        | None => fetch_fee_history self
        end ;;
      base_fee <- lift (last_item (default [0] (baseFeePerGas fee_history))) ;;
      median_priority_fee <- lift (median_priority_fee fee_history) ;;
      priority_fee <- _multiply self median_priority_fee fee_range ;;
      max_fee <- _multiply self (base_fee + priority_fee) fee_range ;;
      ret (<["maxPriorityFeePerGas" := VInt priority_fee]>
             (<["maxFeePerGas" := VInt max_fee]>
                (<["type" := VStr "0x2"]> tx_params)))
  end.

Definition _get_l1_fee (self : Onchain) (tx_params : TxParams) : M (Amount * TxParams) :=
  ch <- get_chain (chain self) ;;
  if decide (chain_name ch = "op") then
    let data := default (VStr "0x") (tx_params !! "data") in
    let tx_params := <["data" := data]> tx_params in
    l1_fee <- rpc (chain self) (Rpc_getL1Fee data) (fun c t => rpc_getL1Fee w c t data) ;;
    ret (Amount_wei l1_fee None, tx_params)
  else ret (Amount_wei 0 None, tx_params).

(** Truth value of an optional string argument. *)
Definition str_truthy (o : option string) : option string :=
  match o with
  | Some "" => None
  | _ => o
  end.

(** Lines 213-240.  [if value:] is taken to hold exactly when an amount was
    passed: an [Amount] (see above) is a plain value object, and no truth
    value of its own is described for it. *)
Definition _prepare_tx (self : Onchain) (value : option Amount)
    (to_address : option Address) : M TxParams :=
  tx_params <- _get_fee self None ;;
  let tx_params := <["from" := VStr (address (account self))]> tx_params in
  nonce <- rpc (chain self) (Rpc_get_transaction_count (address (account self)))
             (fun c t => rpc_get_transaction_count w c t (address (account self))) ;;
  let tx_params := <["nonce" := VInt nonce]> tx_params in
  ch <- get_chain (chain self) ;;
  let tx_params := <["chainId" := VInt (chain_id ch)]> tx_params in
  let tx_params := match value with
                   | Some v => <["value" := VInt (wei v)]> tx_params
                   | None => tx_params
                   end in
  let tx_params := match str_truthy to_address with
                   | Some a => <["to" := VStr a]> tx_params
                   | None => tx_params
                   end in
  ret tx_params.

Definition _sign_and_send (self : Onchain) (tx : TxParams) : M string :=
  emit (EvSign tx) ;;;
  if sign_transaction w tx (private_key (account self)) then
    tx_hash <- rpc (chain self) (Rpc_send_raw_transaction tx)
                 (fun c t => rpc_send_raw_transaction w c t tx) ;;
    rpc (chain self) (Rpc_wait_for_transaction_receipt tx_hash)
        (fun c t => rpc_wait_for_transaction_receipt w c t tx_hash)
  else raise TypeError "the transaction cannot be signed".

Definition get_balance (self : Onchain) (token : TokenArg)
    (address_arg : option Address) : M Amount :=
  let addr := to_checksum w (default (address (account self)) (str_truthy address_arg)) in
  token <-
    match token with
    | TokNone =>
        native <- get_NATIVE_TOKEN ;;
        let native := mkToken (Token_symbol native) (Token_address native) (chain self)
                              (Token_decimals native) (type_token native) in
        put_NATIVE_TOKEN native ;;;
        ret native
    | TokStr a =>
        p <- _get_token_params self a ;;
        ret (Token_new self p.1 a p.2)
    | TokObj t => ret t
    end ;;
  if decide (Token_chain token ≠ chain self) then
    tc <- get_chain (Token_chain token) ;;
    ch <- get_chain (chain self) ;;
    logger ERROR (Msg_token_on_other_chain (chain_name tc) (chain_name ch)) ;;;
    raise ValueError "Токен на другой сети"
  else
    match type_token token with
    | NATIVE =>
        native_balance <- rpc (chain self) (Rpc_get_balance addr)
                            (fun c t => rpc_get_balance w c t addr) ;;
        ret (Amount_wei native_balance None)
    | ERC20 =>
        erc20_balance_wei <-
          rpc (chain self) (Rpc_balanceOf (Token_address token) addr)
              (fun c t => rpc_balanceOf w c t (Token_address token) addr) ;;
        ret (Amount_wei erc20_balance_wei (Some (Token_decimals token)))
    end.

(** The probe of step 3: a transfer of 1 wei to oneself. *)
Definition self_transfer_probe (self : Onchain) : TxParams :=
  <["value" := VInt 1]>
    (<["to" := VStr (address (account self))]>
       (<["from" := VStr (address (account self))]> ∅)).

(** [tx_params.get('maxFeePerGas', tx_params.get('gasPrice'))] *)
Definition gues_gas_price_of (tx_params : TxParams) : option PyVal :=
  match tx_params !! "maxFeePerGas" with
  | Some v => Some v
  | None => tx_params !! "gasPrice"
  end.

Definition as_int (v : option PyVal) (t : ExcType) (msg : string) : Result Z :=
  match v with
  | Some (VInt z) => Ok z
  | _ => Raise (mkExc t msg)
  end.

Definition insufficient_funds_msg : string :=
  "Недостаточно средств для отправки нативного токена".

(** Steps 2-5 of [_validate_native_transfer_value]: the estimated fee with
    its safety margin, and the dictionary after [_get_l1_fee] touched it. *)
Definition native_fee_spend (self : Onchain) (tx_params : TxParams)
    : M (Z * TxParams) :=
  p <- _get_l1_fee self tx_params ;;
  let l1_fee := p.1 in
  let tx_params := p.2 in
  gues_gas <- rpc (chain self) (Rpc_estimate_gas (self_transfer_probe self))
                (fun c t => rpc_estimate_gas w c t (self_transfer_probe self)) ;;
  gues_gas_price <- lift (as_int (gues_gas_price_of tx_params) TypeError
                            "unsupported operand type(s) for *") ;;
  fee_spend <- _multiply self (wei l1_fee + gues_gas * gues_gas_price) margin_range ;;
  ret (fee_spend, tx_params).

(** Step 8: the warning that announces the correction. *)
Definition warn_correction (self : Onchain) (balance amount : Amount) (to : PyVal)
    : M unit :=
  ch <- get_chain (chain self) ;;
  logger WARNING (Msg_not_enough_sending_all (profile_number (account self))
                    (chain_native_token ch) balance amount to).

(** Returns the dictionary it was given, with ['value'] possibly rewritten
    (the Python method updates its argument in place). *)
Definition _validate_native_transfer_value (self : Onchain) (tx_params : TxParams)
    : M TxParams :=
  value <- match tx_params !! "value" with
           | None => raise KeyError "value"
           | v => lift (as_int v TypeError "value is not an int")
           end ;;
  let amount := Amount_wei value None in
  p <- native_fee_spend self tx_params ;;
  let fee_spend := p.1 in
  let tx_params := p.2 in
  balance <- get_balance self TokNone None ;;
  if 0 <=? wei balance - fee_spend - wei amount then ret tx_params
  else
    to <- answer KeyError "to" (tx_params !! "to") ;;
    warn_correction self balance amount to ;;;
    margin_fee <- _multiply self fee_spend margin_range ;;
    let tx_params := <["value" := VInt (wei balance - margin_fee)]> tx_params in
    if 0 <? wei balance - margin_fee then ret tx_params
    else
      logger ERROR (Msg_not_enough (profile_number (account self))) ;;;
      raise ValueError insufficient_funds_msg.

(** [contract.functions.f(...).build_transaction(tx_params)]: the destination
    and the encoded call are added to the given parameters.  What the web3
    library does besides (it validates the arguments of the call and fills
    in defaults, with requests of its own) is not part of the sources and
    is not modelled: the trace holds the requests that the methods of
    [Onchain] make themselves. *)
Definition build_transaction (contract : Address) (call : CallData)
    (tx_params : TxParams) : TxParams :=
  <["data" := VData call]> (<["to" := VStr contract]> tx_params).

(** [Amount(amount, decimals=d)] for a bare number *)
Definition Amount_of_number (n : PyNum) (d : Z) : Amount :=
  mkAmount (number_to_wei w n d) d.

Definition no_attribute (cls attr : string) : string :=
  "'" +:+ cls +:+ "' object has no attribute '" +:+ attr +:+ "'".

Definition send_token (self : Onchain) (to_address : Address) (amount : AmountArg)
    (token : TokenArg) : M string :=
  token <-
    match token with
    | TokNone =>
        native <- get_NATIVE_TOKEN ;;
        ch <- get_chain (chain self) ;;
        let native := mkToken (chain_native_token ch) (Token_address native) (chain self)
                              (Token_decimals native) (type_token native) in
        put_NATIVE_TOKEN native ;;;
        ret (TokObj native)
    | _ => ret token
    end ;;
  amount <-
    match amount with
    | AmtNone =>
        balance <- get_balance self token None ;;
        match token with
        | TokObj t => ret (AmtObj (Amount_wei (wei balance) (Some (Token_decimals t))))
        | _ => raise AttributeError (no_attribute "str" "decimals")
        end
    | _ => ret amount
    end ;;
  let to_address := to_checksum w to_address in
  token <-
    match token with
    | TokStr a =>
        p <- _get_token_params self a ;;
        ret (Token_new self p.1 a p.2)
    | TokObj t => ret t
    | TokNone => raise AttributeError (no_attribute "NoneType" "type_token")
    end ;;
  let amount := match amount with
                | AmtObj a => a
                | AmtNum n => Amount_of_number n (Token_decimals token)
                | AmtNone => Amount_wei 0 None
                end in
  p <-
    match type_token token with
    | NATIVE =>
        tx_params <- _prepare_tx self (Some amount) (Some to_address) ;;
        tx_params <- _validate_native_transfer_value self tx_params ;;
        value <- lift (as_int (tx_params !! "value") TypeError "value is not an int") ;;
        ret (Amount_wei value None, tx_params)
    | ERC20 =>
        balance <- get_balance self (TokObj token) None ;;
        let amount := if wei balance <? wei amount then balance else amount in
        tx_params <- _prepare_tx self None None ;;
        ret (amount, build_transaction (Token_address token)
                       (TransferCall to_address (wei amount)) tx_params)
    end ;;
  let amount := p.1 in
  tx_params <- _estimate_gas self p.2 ;;
  tx_hash <- _sign_and_send self tx_params ;;
  logger INFO (Msg_tx_sent (profile_number (account self)) amount (Token_symbol token)
                 to_address tx_hash) ;;;
  ret tx_hash.

Definition spender_address (spender : SpenderArg) : Address :=
  match spender with
  | SpStr a => a
  | SpContractRaw a => a
  end.

(** [Web3.to_checksum_address] is taken to agree with [utils.to_checksum]. *)
Definition _get_allowance (self : Onchain) (token : TokenArg) (spender : SpenderArg)
    : M Amount :=
  match token with
  | TokNone => ret (Amount_wei 0 None)
  | TokStr _ => raise AttributeError (no_attribute "str" "type_token")
  | TokObj token =>
      match type_token token with
      | NATIVE => ret (Amount_wei 0 None)
      | ERC20 =>
          let spender := to_checksum w (spender_address spender) in
          allowance <-
            rpc (chain self)
                (Rpc_allowance (Token_address token) (address (account self)) spender)
                (fun c t => rpc_allowance w c t (Token_address token)
                              (address (account self)) spender) ;;
          ret (Amount_wei allowance (Some (Token_decimals token)))
      end
  end.

Definition approve (self : Onchain) (token : TokenArg) (amount : AmountArg)
    (spender : SpenderArg) : M unit :=
  match token with
  | TokNone => ret tt
  | TokStr _ => raise AttributeError (no_attribute "str" "type_token")
  | TokObj token =>
      match type_token token with
      | NATIVE => ret tt
      | ERC20 =>
          let amount := match amount with
                        | AmtNum n => AmtObj (Amount_of_number n (Token_decimals token))
                        | _ => amount
                        end in
          allowed <- _get_allowance self (TokObj token) spender ;;
          amount <- match amount with
                    | AmtObj a => ret a
                    | _ => raise AttributeError (no_attribute "NoneType" "wei")
                    end ;;
          if (wei amount =? 0) && (wei allowed =? 0) then ret tt
          else if negb (wei amount =? 0) && (wei amount <=? wei allowed) then ret tt
          else
            let spender := spender_address spender in
            tx_params <- _prepare_tx self None None ;;
            tx_params <- _get_fee self (Some tx_params) ;;
            let tx_params := build_transaction (Token_address token)
                               (ApproveCall spender (wei amount)) tx_params in
            tx_params <- _estimate_gas self tx_params ;;
            _sign_and_send self tx_params ;;;
            logger INFO (Msg_approve_sent (profile_number (account self)) amount
                           (Token_symbol token) spender)
      end
  end.

Definition get_gas_price (self : Onchain) (gwei : bool) : M PyNum :=
  gas_price <- rpc (chain self) Rpc_gas_price (rpc_gas_price w) ;;
  if gwei then
    f <- lift (int_truediv gas_price (10 ^ 9)) ;;
    ret (NFloat f)
  else ret (NInt gas_price).

(** [a > b] between a gas price and an integer limit *)
Definition num_gt_int (a : PyNum) (b : Z) : bool :=
  match a with
  | NInt z => b <? z
  | NFloat f => gt_int f b
  end.

(** The polling loop of [gas_price_wait], for at most [fuel] polls;
    [false] is returned when the polls are used up. *)
Fixpoint gas_price_wait_loop (fuel : nat) (self : Onchain) (gas_limit : Z) : M bool :=
  match fuel with
  | O => ret false
  | S fuel =>
      p <- get_gas_price self true ;;
      if num_gt_int p gas_limit then
        emit EvSleep ;;;
        gas_price_wait_loop fuel self gas_limit
      else ret true
  end.

Definition gas_price_wait (fuel : nat) (self : Onchain) (gas_limit : option Z) : M bool :=
  let gas_limit := match gas_limit with
                   | None | Some 0 => gas_price_limit w
                   | Some l => l
                   end in
  gas_price_wait_loop fuel self gas_limit.

Definition _get_approval_logs (self : Onchain) : M (list ApprovalLog) :=
  ch <- get_chain (chain self) ;;
  t <- get_tick ;;
  emit (EvHttp_getLogs (chain_id ch) (address (account self))) ;;;
  response <- answer RequestException "block explorer request failed"
                (http_getLogs w t (chain_id ch) (address (account self))) ;;
  ret (default [] response).

(** ['0x' + log.get('topics')[2][26:]] *)
Definition spender_of_log (log : ApprovalLog) : Result Address :=
  match log_topics log !! 2%nat with
  | Some topic => Ok ("0x" +:+ String.substring 26 (String.length topic - 26) topic)
  | None => Raise (mkExc IndexError "list index out of range")
  end.

(** The first loop of [remove_approves] *)
Fixpoint collect_approved (logs : list ApprovalLog) (approved : gset (Address * Address))
    : Result (gset (Address * Address)) :=
  match logs with
  | [] => Ok approved
  | log :: rest =>
      match spender_of_log log with
      | Ok spender_address =>
          collect_approved rest ({[ (log_address log, spender_address) ]} ∪ approved)
      | Raise e => Raise e
      end
  end.

(** The body of the second loop of [remove_approves]: one pair is revoked;
    the updated token cache is returned. *)
Definition revoke_one (self : Onchain) (item : Address * Address)
    (tokens_cache : gmap Address Token) : M (gmap Address Token) :=
  let token_address := item.1 in
  let spender_address := item.2 in
  p <- match tokens_cache !! token_address with
       | Some token => ret (token, tokens_cache)
       | None =>
           q <- _get_token_params self token_address ;;
           let token := Token_new self q.1 token_address q.2 in
           ret (token, <[token_address := token]> tokens_cache)
       end ;;
  approve self (TokObj p.1) (AmtNum (NInt 0)) (SpStr spender_address) ;;;
  ret p.2.

(** The second loop of [remove_approves], over the pairs in iteration order *)
Fixpoint revoke_each (self : Onchain) (approved : list (Address * Address))
    (tokens_cache : gmap Address Token) : M unit :=
  match approved with
  | [] => ret tt
  | item :: rest =>
      tokens_cache <- revoke_one self item tokens_cache ;;
      revoke_each self rest tokens_cache
  end.

Definition remove_approves (self : Onchain) : M unit :=
  if decide (ETHERSCAN_API_KEY w = "") then logger ERROR Msg_no_etherscan_key
  else
    logs <- _get_approval_logs self ;;
    match logs with
    | [] => logger INFO Msg_no_approval_logs
    | _ =>
        approved <- lift (collect_approved logs ∅) ;;
        revoke_each self (elements approved) ∅
    end.

End Onchain.

(** ** [core/bot.py]: class [Bot] as a context manager

    Of the Bot object only its account is used by [__exit__]; the Bot is
    therefore represented by its account. *)

Module Bot.
Section Bot.

Context (w : World).

Definition contains (needle hay : string) : bool :=
  match String.index 0 needle hay with
  | Some _ => true
  | None => false
  end.

Definition __enter__ (self : Account) : M Account := ret self.

Definition __exit__ (self : Account) (exc : option Exc) : M bool :=
  t <- get_tick ;;
  emit EvCloseBrowser ;;;
  (if close_browser w t then ret tt
   else raise (OtherException "Exception" false) "close_browser failed") ;;;
  match exc with
  | None => logger SUCCESS (Msg_account_done (profile_number self))
  | Some e =>
      if issubclass_TimeoutError (exc_type e)
      then logger ERROR (Msg_account_timeout (profile_number self))
      else if contains "object has no attribute: page" (exc_val e)
           then logger ERROR (Msg_account_no_page (profile_number self) (exc_val e))
           else logger CRITICAL (Msg_account_failed (profile_number self) (exc_val e))
  end ;;;
  ret true.

(** [with Bot(account) as bot: body]: what Python does with the value that
    [__exit__] returns. *)
Definition with_Bot {A} (self : Account) (body : Account -> M A) : M (option A) :=
  fun s =>
    match (bot <- __enter__ self ;; body bot) s with
    | (Ok a, s1) =>
        match __exit__ self None s1 with
        | (Ok _, s2) => (Ok (Some a), s2)
        | (Raise e', s2) => (Raise e', s2)
        end
    | (Raise e, s1) =>
        match __exit__ self (Some e) s1 with
        | (Ok true, s2) => (Ok None, s2)
        | (Ok false, s2) => (Raise e, s2)
        | (Raise e', s2) => (Raise e', s2)
        end
    end.

End Bot.
End Bot.

(** * Reasoning about runs: definitions *)

Local Open Scope py_scope.

(** [respects R m]: every run of [m] relates its initial and final state by [R]. *)
Definition respects {A} (R : relation State) (m : M A) : Prop :=
  forall s r s', m s = (r, s') -> R s s'.

(** The trace only grows, and by events that satisfy [P]. *)
Definition grows (P : Event -> Prop) : relation State :=
  fun s s' => exists evs, trace s' = evs ++ trace s /\ Forall P evs.

(** The Chain objects are left as they are. *)
Definition same_chains : relation State :=
  fun s s' => chains s' = chains s.

(** Signing a transaction or handing it to the node. *)
Definition is_submit (e : Event) : bool :=
  match e with
  | EvSign _ => true
  | EvRpc _ (Rpc_send_raw_transaction _) => true
  | _ => false
  end.

(** A request that leaves the machine. *)
Definition is_network (e : Event) : bool :=
  match e with
  | EvRpc _ _ | EvHttp_getLogs _ _ => true
  | _ => false
  end.

Definition is_fee_history (e : Event) : bool :=
  match e with
  | EvRpc _ (Rpc_fee_history _ _ _) => true
  | _ => false
  end.


(** The transactions handed to the node, most recent first. *)
Definition sent (tr : list Event) : list TxParams :=
  omap (fun e => match e with
                 | EvRpc _ (Rpc_send_raw_transaction tx) => Some tx
                 | _ => None
                 end) tr.

Definition count (k : Event -> bool) (tr : list Event) : nat :=
  length (filter (fun e => k e = true) tr).

Definition not_submit (e : Event) : Prop := is_submit e = false.
Definition not_fee_history (e : Event) : Prop := is_fee_history e = false.

(** The one fee-history request of the code: 20 blocks, 40th percentile. *)
Definition fee_history_query (self : Onchain) : Event :=
  EvRpc (chain self) (Rpc_fee_history 20 "latest" [40]).

(** What a run adds to the trace: [n] fee-history requests, each of them
    the request above. *)
Definition fee_history_requests (self : Onchain) (n : nat) (s s' : State) : Prop :=
  exists evs, trace s' = evs ++ trace s /\
    count is_fee_history evs = n /\
    Forall (fun e => is_fee_history e = true -> e = fee_history_query self) evs.

(** [raises_only_after P err m]: a run of [m] that ends in the exception [err]
    has added only events that satisfy [P]. *)
Definition raises_only_after {A} (P : Event -> Prop) (err : Exc) (m : M A) : Prop :=
  forall s r s', m s = (r, s') -> r = Raise err -> grows P s s'.

(** The error of an unaffordable native transfer. *)
Definition InsufficientFunds : Exc := mkExc ValueError insufficient_funds_msg.

(** The error of a token that belongs to another chain. *)
Definition CrossChainTokenMismatch : Exc := mkExc ValueError "Токен на другой сети".

(** Whether the allowance of a (token, spender) pair was read: the first
    request of its revocation. *)
Definition attempted (w : World) (tr : list Event) (item : Address * Address) : bool :=
  existsb (fun e => match e with
                    | EvRpc _ (Rpc_allowance token _ spender) =>
                        bool_decide (token = item.1)
                        && bool_decide (spender = to_checksum w item.2)
                    | _ => false
                    end) tr.

(** [revoked w self items c s c' s']: the revocations of [items], run one
    after the other from the cache [c] and the state [s], all return and
    leave the cache [c'] and the state [s']. *)
Inductive revoked (w : World) (self : Onchain) :
  list (Address * Address) -> gmap Address Token -> State ->
  gmap Address Token -> State -> Prop :=
| revoked_nil c s : revoked w self [] c s c s
| revoked_cons item items c s c1 s1 c2 s2 :
    revoke_one w self item c s = (Ok c1, s1) ->
    revoked w self items c1 s1 c2 s2 ->
    revoked w self (item :: items) c s c2 s2.

(** A run of [m] hands at most one transaction to the node. *)
Definition sends_at_most_one {A} (m : M A) : Prop :=
  forall s r s', m s = (r, s') ->
    (length (sent (trace s')) <= S (length (sent (trace s))))%nat.

(** * Sample worlds and inputs *)

(** Approval logs of two tokens; the first approval is logged twice. *)
Definition sample_logs : list ApprovalLog :=
  [mkLog "0xTokenA" ["0xddf2"; "0x0a11ce";
     "0x000000000000000000000000aaaaaaaaaaaaaaaaaaaaaaaaaaaaaaaaaaaaaaaa"];
   mkLog "0xTokenB" ["0xddf2"; "0x0a11ce";
     "0x000000000000000000000000bbbbbbbbbbbbbbbbbbbbbbbbbbbbbbbbbbbbbbbb"];
   mkLog "0xTokenA" ["0xddf2"; "0x0a11ce";
     "0x000000000000000000000000aaaaaaaaaaaaaaaaaaaaaaaaaaaaaaaaaaaaaaaa"]].

(** A node that answers every request; the gas estimator is a parameter, so
    that failing estimations can be played as well.  Random draws return
    the upper end of the requested range. *)
Definition sample_world (gas_price native_balance erc20_balance allowance : Z)
    (estimate : nat -> TxParams -> option Z) : World :=
  {| rpc_fee_history := fun _ _ =>
       Some (mkFeeHistory (Some [5; 7]) (Some [[8]; [0]; [2]; [6]; [4]]) true);
     rpc_gas_price := fun _ _ => Some gas_price;
     rpc_estimate_gas := fun _ => estimate;
     rpc_get_transaction_count := fun _ _ _ => Some 0;
     rpc_get_balance := fun _ _ _ => Some native_balance;
     rpc_decimals := fun _ _ _ => Some 6;
     rpc_symbol := fun _ _ _ => Some "USDT";
     rpc_balanceOf := fun _ _ _ _ => Some erc20_balance;
     rpc_allowance := fun _ _ _ _ _ => Some allowance;
     rpc_getL1Fee := fun _ _ _ => Some 0;
     rpc_send_raw_transaction := fun _ _ _ => Some "0xhash";
     rpc_wait_for_transaction_receipt := fun _ _ h => Some h;
     sign_transaction := fun _ key => bool_decide (is_Some key);
     http_getLogs := fun _ _ _ => Some (Some sample_logs);
     get_multiplayer := fun _ range =>
       match range with
       | Some (_, hi) => hi
       | None => literal 110
       end;
     to_checksum := fun a => a;
     token_type_of := fun _ => ERC20;
     number_to_wei := fun n d =>
       match n with
       | NInt z => z * 10 ^ d
       | NFloat _ => 0
       end;
     ETHERSCAN_API_KEY := "key";
     gas_price_limit := 30;
     close_browser := fun _ => true |}.

Definition always (gas : Z) : nat -> TxParams -> option Z := fun _ _ => Some gas.

Definition sample_account : Account := mkAccount 7 "0xA11ce" (Some "0xkey").

(** Connected to chain object 0; chain object 1 is another network. *)
Definition sample_self : Onchain := mkOnchain sample_account 0.

Definition sample_state (flag : option bool) : State :=
  {| trace := [];
     chains := <[0%nat := mkChain "ethereum" 1 "ETH" flag (literal 100)]>
                 (<[1%nat := mkChain "bsc" 56 "BNB" None (literal 100)]> ∅);
     NATIVE_TOKEN := mkToken "ETH" "0xEeeeeEeeeEeEeeEeEeEeeEEEeeeeEeeeeeeeEEeE" 0 18 NATIVE |}.

Definition usdt : Token := mkToken "USDT" "0xUSDT" 0 6 ERC20.

(** The same contract address, declared for the other network. *)
Definition usdt_bsc : Token := mkToken "USDT" "0xUSDT" 1 6 ERC20.

(** The native asset of the other network, as a Token object. *)
Definition bnb : Token :=
  mkToken "BNB" "0xEeeeeEeeeEeEeeEeEeEeeEEEeeeeEeeeeeeeEEeE" 1 18 NATIVE.

(** Parameters of a transfer of 95 wei, as [_prepare_tx] leaves them on a
    legacy chain. *)
Definition sample_tx : TxParams :=
  <["to" := VStr "0xB0b"]>
    (<["value" := VInt 95]>
       (<["chainId" := VInt 1]>
          (<["nonce" := VInt 0]>
             (<["from" := VStr "0xA11ce"]> (<["gasPrice" := VInt 3]> ∅))))).

(** A node whose gas estimation fails for a while and then recovers. *)
Definition flaky (t : nat) (_ : TxParams) : option Z :=
  if (t <? 12)%nat then None else Some 3.

Definition token_A_pair : Address * Address :=
  ("0xTokenA", "0xaaaaaaaaaaaaaaaaaaaaaaaaaaaaaaaaaaaaaaaa").
Definition token_B_pair : Address * Address :=
  ("0xTokenB", "0xbbbbbbbbbbbbbbbbbbbbbbbbbbbbbbbbbbbbbbbb").

(** * More of [core/onchain.py] *)

(** [s[n:]] on a string *)
Definition slice_from (n : nat) (s : string) : string :=
  String.substring n (String.length s - n) s.

Fixpoint string_repeat (n : nat) (c : Ascii.ascii) : string :=
  match n with
  | O => ""
  | S n => String c (string_repeat n c)
  end.

(** [s.rjust(width, fill)]: padding on the left, never a truncation *)
Definition rjust (width : nat) (fill : Ascii.ascii) (s : string) : string :=
  string_repeat (width - String.length s) fill +:+ s.

(** The character ['0'] *)
Definition char_0 : Ascii.ascii :=
  Ascii.Ascii false false false false true true false false.

(** ['0x' + address[2:].rjust(64, '0')]: an address as a 32-byte topic, the
    way [_get_approval_logs] writes the owner into [topic1] *)
Definition address_topic (a : Address) : string :=
  "0x" +:+ rjust 64 char_0 (slice_from 2 a).

Section OnchainMore.

Context (w : World).

(** [fees_data['baseFeePerGas']] raises [KeyError] on a missing key, unlike
    the [get(..., [0])] of [_get_fee]; no percentile is asked for. *)
Definition is_eip_1559 (self : Onchain) : M bool :=
  fees_data <- rpc (chain self) (Rpc_fee_history 50 "latest" [])
                 (fun c t => rpc_fee_history w c t) ;;
  base_fee <- answer KeyError "baseFeePerGas" (baseFeePerGas fees_data) ;;
  if any base_fee then ret true else ret false.

End OnchainMore.

(** * More kinds of events and relations *)

(** A request to the node of a chain. *)
Definition is_rpc (e : Event) : bool :=
  match e with
  | EvRpc _ _ => true
  | _ => false
  end.

Definition is_http (e : Event) : bool :=
  match e with
  | EvHttp_getLogs _ _ => true
  | _ => false
  end.

(** A lookup of a token's decimals or symbol. *)
Definition is_token_params (e : Event) : bool :=
  match e with
  | EvRpc _ (Rpc_decimals _) | EvRpc _ (Rpc_symbol _) => true
  | _ => false
  end.

Definition is_gas_price (e : Event) : bool :=
  match e with
  | EvRpc _ Rpc_gas_price => true
  | _ => false
  end.

Definition is_sleep (e : Event) : bool :=
  match e with
  | EvSleep => true
  | _ => false
  end.

(** The pair that a log stands for. *)
Definition pair_of_log (log : ApprovalLog) : Result (Address * Address) :=
  match spender_of_log log with
  | Ok spender => Ok (log_address log, spender)
  | Raise e => Raise e
  end.

(** The token addresses of [items] that the cache does not hold yet. *)
Definition uncached_tokens (items : list (Address * Address))
    (tokens_cache : gmap Address Token) : nat :=
  size (list_to_set (items.*1) ∖ dom tokens_cache : gset Address).

(** The answer of the block explorer to the request that a call made in
    state [s] sends: the logs, if any. *)
Definition logs_answered (w : World) (self : Onchain) (s : State) : list ApprovalLog :=
  match http_getLogs w (tick s) (chain_id (chains s !!! chain self))
          (address (account self)) with
  | Some (Some logs) => logs
  | _ => []
  end.

(** What the poll of [gas_price_wait] made at tick [t] finds: whether the
    price in gwei is above the limit; [None] when the request fails. *)
Definition poll_above (w : World) (self : Onchain) (limit : Z) (t : nat) : option bool :=
  match rpc_gas_price w (chain self) t with
  | Some price =>
      match PyFloat.int_truediv price (10 ^ 9) with
      | Ok f => Some (PyFloat.gt_int f limit)
      | Raise _ => None
      end
  | None => None
  end.

(** A node whose gas price is read off the tick of the request. *)
Definition world_with_gas_price (prices : nat -> option Z) (limit : Z) : World :=
  let w := sample_world 3 100 300 50 (always 3) in
  mkWorld (rpc_fee_history w) (fun _ t => prices t) (rpc_estimate_gas w)
    (rpc_get_transaction_count w) (rpc_get_balance w) (rpc_decimals w) (rpc_symbol w)
    (rpc_balanceOf w) (rpc_allowance w) (rpc_getL1Fee w) (rpc_send_raw_transaction w)
    (rpc_wait_for_transaction_receipt w) (sign_transaction w) (http_getLogs w)
    (get_multiplayer w) (to_checksum w) (token_type_of w) (number_to_wei w)
    (ETHERSCAN_API_KEY w) limit (close_browser w).

(** A machine on which the browser cannot be closed. *)
Definition world_with_stuck_browser : World :=
  let w := sample_world 3 100 300 50 (always 3) in
  mkWorld (rpc_fee_history w) (rpc_gas_price w) (rpc_estimate_gas w)
    (rpc_get_transaction_count w) (rpc_get_balance w) (rpc_decimals w) (rpc_symbol w)
    (rpc_balanceOf w) (rpc_allowance w) (rpc_getL1Fee w) (rpc_send_raw_transaction w)
    (rpc_wait_for_transaction_receipt w) (sign_transaction w) (http_getLogs w)
    (get_multiplayer w) (to_checksum w) (token_type_of w) (number_to_wei w)
    (ETHERSCAN_API_KEY w) (gas_price_limit w) (fun _ => false).

(** A block explorer that answers without a result. *)
Definition world_without_logs : World :=
  let w := sample_world 3 100 300 50 (always 3) in
  mkWorld (rpc_fee_history w) (rpc_gas_price w) (rpc_estimate_gas w)
    (rpc_get_transaction_count w) (rpc_get_balance w) (rpc_decimals w) (rpc_symbol w)
    (rpc_balanceOf w) (rpc_allowance w) (rpc_getL1Fee w) (rpc_send_raw_transaction w)
    (rpc_wait_for_transaction_receipt w) (sign_transaction w) (fun _ _ _ => Some None)
    (get_multiplayer w) (to_checksum w) (token_type_of w) (number_to_wei w)
    (ETHERSCAN_API_KEY w) (gas_price_limit w) (close_browser w).

(** A block explorer whose last log lacks the topic of the spender. *)
Definition world_with_short_log : World :=
  let w := sample_world 3 100 300 50 (always 3) in
  mkWorld (rpc_fee_history w) (rpc_gas_price w) (rpc_estimate_gas w)
    (rpc_get_transaction_count w) (rpc_get_balance w) (rpc_decimals w) (rpc_symbol w)
    (rpc_balanceOf w) (rpc_allowance w) (rpc_getL1Fee w) (rpc_send_raw_transaction w)
    (rpc_wait_for_transaction_receipt w) (sign_transaction w)
    (fun _ _ _ => Some (Some (sample_logs ++ [mkLog "0xTokenC" ["0xddf2"; "0x0a11ce"]])))
    (get_multiplayer w) (to_checksum w) (token_type_of w) (number_to_wei w)
    (ETHERSCAN_API_KEY w) (gas_price_limit w) (close_browser w).

(** ** What the methods leave alone *)

(** Between two states of a Chain object: its settings are the same, and a
    fee model that was known stays the same. *)
Definition chain_settings_kept (ch ch' : Chain) : Prop :=
  chain_name ch' = chain_name ch /\
  chain_id ch' = chain_id ch /\
  chain_native_token ch' = chain_native_token ch /\
  multiplier ch' = multiplier ch /\
  (forall b, is_eip1559 ch = Some b -> is_eip1559 ch' = Some b).

(** Between two states of the program, for a connection [self]: the Chain
    objects of other chains are untouched, the one of [self] keeps its
    settings, and of the shared native token only the chain and the symbol
    may have changed, to the chain of [self] and to its native symbol. *)
Definition settings_kept (self : Onchain) : relation State :=
  fun s s' =>
    (forall c, c <> chain self -> chains s' !! c = chains s !! c) /\
    chain_settings_kept (chains s !!! chain self) (chains s' !!! chain self) /\
    Token_address (NATIVE_TOKEN s') = Token_address (NATIVE_TOKEN s) /\
    Token_decimals (NATIVE_TOKEN s') = Token_decimals (NATIVE_TOKEN s) /\
    type_token (NATIVE_TOKEN s') = type_token (NATIVE_TOKEN s) /\
    (Token_chain (NATIVE_TOKEN s') = Token_chain (NATIVE_TOKEN s) \/
     Token_chain (NATIVE_TOKEN s') = chain self) /\
    (Token_symbol (NATIVE_TOKEN s') = Token_symbol (NATIVE_TOKEN s) \/
     Token_symbol (NATIVE_TOKEN s')
     = chain_native_token (chains s !!! chain self)).

(** ** The transactions that are submitted *)

(** The fee fields of a legacy transaction, and only those. *)
Definition legacy_fee_fields (tx : TxParams) : Prop :=
  (exists v, tx !! "gasPrice" = Some (VInt v)) /\
  tx !! "type" = None /\ tx !! "maxFeePerGas" = None /\
  tx !! "maxPriorityFeePerGas" = None.

(** The fee fields of an EIP-1559 transaction, and only those. *)
Definition eip1559_fee_fields (tx : TxParams) : Prop :=
  tx !! "type" = Some (VStr "0x2") /\
  (exists v, tx !! "maxFeePerGas" = Some (VInt v)) /\
  (exists v, tx !! "maxPriorityFeePerGas" = Some (VInt v)) /\
  tx !! "gasPrice" = None.

(** Parameters of a transaction of the account of [self] on the chain with
    id [id]: sender, chain id and nonce are there, and the fee is given in
    the one way that fits the fee model [eip] of the chain. *)
Definition tx_prepared (self : Onchain) (id : Z) (eip : bool) (tx : TxParams) : Prop :=
  tx !! "from" = Some (VStr (address (account self))) /\
  tx !! "chainId" = Some (VInt id) /\
  (exists n, tx !! "nonce" = Some (VInt n)) /\
  (if eip then eip1559_fee_fields tx else legacy_fee_fields tx).

(** A transaction that is complete: prepared, and with a gas limit. *)
Definition tx_well_formed (self : Onchain) (id : Z) (eip : bool) (tx : TxParams) : Prop :=
  tx_prepared self id eip tx /\ (exists g, tx !! "gas" = Some (VInt g)).

(** Prepared for the chain of [self] as it is known in the state [s]. *)
Definition prepared_in (self : Onchain) (s : State) (tx : TxParams) : Prop :=
  exists eip, is_eip1559 (chains s !!! chain self) = Some eip /\
              tx_prepared self (chain_id (chains s !!! chain self)) eip tx.

(** What a run has handed to the node: nothing, or one well-formed
    transaction of the account on the chain of the connection. *)
Definition sent_well_formed (self : Onchain) (s s' : State) : Prop :=
  sent (trace s') = sent (trace s) \/
  exists tx eip,
    sent (trace s') = tx :: sent (trace s) /\
    is_eip1559 (chains s' !!! chain self) = Some eip /\
    tx_well_formed self (chain_id (chains s !!! chain self)) eip tx.

(** * Reasoning about runs: lemmas *)

Lemma bind_Ok {A B} (m : M A) (f : A -> M B) s a s1 :
  m s = (Ok a, s1) -> bind m f s = f a s1.
Proof. intros H. unfold bind. by rewrite H. Qed.

Lemma bind_Raise {A B} (m : M A) (f : A -> M B) s e s1 :
  m s = (Raise e, s1) -> bind m f s = (Raise e, s1).
Proof. intros H. unfold bind. by rewrite H. Qed.

Lemma bind_run {A B} (m : M A) (f : A -> M B) s r s' :
  bind m f s = (r, s') ->
  (exists a s1, m s = (Ok a, s1) /\ f a s1 = (r, s')) \/
  (exists e, m s = (Raise e, s') /\ r = Raise e).
Proof.
  unfold bind. destruct (m s) as [[a|e] s1]; intros H.
  - left. eauto.
  - right. inversion H; subst. eauto.
Qed.

Lemma bind_ret {A B} (a : A) (f : A -> M B) s : bind (ret a) f s = f a s.
Proof. reflexivity. Qed.

Lemma bind_lift_Ok {A B} (a : A) (f : A -> M B) s : bind (lift (Ok a)) f s = f a s.
Proof. reflexivity. Qed.

Lemma bind_emit {B} e (f : unit -> M B) s : bind (emit e) f s = f tt (push e s).
Proof. reflexivity. Qed.

Lemma bind_get_chain {B} c (f : Chain -> M B) s :
  bind (get_chain c) f s = f (chains s !!! c) s.
Proof. reflexivity. Qed.

#[global] Instance grows_preorder P : PreOrder (grows P).
Proof.
  split.
  - intros s. by exists [].
  - intros s1 s2 s3 [e1 [H1 F1]] [e2 [H2 F2]]. exists (e2 ++ e1). split.
    + by rewrite H2, H1, app_assoc.
    + by apply Forall_app.
Qed.

#[global] Instance same_chains_preorder : PreOrder same_chains.
Proof. split; unfold same_chains; [done | intros x y z; congruence]. Qed.

Lemma grows_weaken (P Q : Event -> Prop) s s' :
  (forall e, P e -> Q e) -> grows P s s' -> grows Q s s'.
Proof.
  intros HPQ [evs [? HF]]. exists evs. split; [done|].
  eapply Forall_impl; eauto.
Qed.

Lemma respects_weaken {A} (P Q : Event -> Prop) (m : M A) :
  (forall e, P e -> Q e) -> respects (grows P) m -> respects (grows Q) m.
Proof. intros HPQ H s r s' Hm. eapply grows_weaken; eauto. Qed.

Section Frames.

Context (R : relation State) `{!PreOrder R}.

Lemma respects_ret {A} (a : A) : respects R (ret a).
Proof. intros s r s' H. inversion H. reflexivity. Qed.

Lemma respects_raise {A} t msg : respects R (@raise A t msg).
Proof. intros s r s' H. inversion H. reflexivity. Qed.

Lemma respects_lift {A} (x : Result A) : respects R (lift x).
Proof. intros s r s' H. inversion H. reflexivity. Qed.

Lemma respects_answer {A} t msg (o : option A) : respects R (answer t msg o).
Proof. destruct o; [apply respects_ret | apply respects_raise]. Qed.

Lemma respects_get_tick : respects R get_tick.
Proof. intros s r s' H. inversion H. reflexivity. Qed.

Lemma respects_get_chain c : respects R (get_chain c).
Proof. intros s r s' H. inversion H. reflexivity. Qed.

Lemma respects_get_NATIVE_TOKEN : respects R get_NATIVE_TOKEN.
Proof. intros s r s' H. inversion H. reflexivity. Qed.

Lemma respects_bind {A B} (m : M A) (f : A -> M B) :
  respects R m -> (forall a, respects R (f a)) -> respects R (bind m f).
Proof.
  intros Hm Hf s r s' H. apply bind_run in H as [(a & s1 & H1 & H2)|(e & H1 & _)].
  - etrans; [eapply Hm | eapply Hf]; eauto.
  - eapply Hm; eauto.
Qed.

End Frames.

Lemma grows_emit P e : P e -> respects (grows P) (emit e).
Proof. intros HP s r s' H. inversion H. exists [e]. split; [done | by constructor]. Qed.

Lemma grows_put_chain P c ch : respects (grows P) (put_chain c ch).
Proof. intros s r s' H. inversion H. by exists []. Qed.

Lemma grows_put_NATIVE_TOKEN P t : respects (grows P) (put_NATIVE_TOKEN t).
Proof. intros s r s' H. inversion H. by exists []. Qed.

Lemma same_chains_emit e : respects same_chains (emit e).
Proof. intros s r s' H. by inversion H. Qed.

Lemma same_chains_put_NATIVE_TOKEN t : respects same_chains (put_NATIVE_TOKEN t).
Proof. intros s r s' H. by inversion H. Qed.

Create HintDb frame discriminated.
#[global] Hint Extern 1 (respects _ get_tick) =>
  apply respects_get_tick; apply _ : frame.
#[global] Hint Extern 1 (respects _ (get_chain _)) =>
  apply respects_get_chain; apply _ : frame.
#[global] Hint Extern 1 (respects _ get_NATIVE_TOKEN) =>
  apply respects_get_NATIVE_TOKEN; apply _ : frame.
#[global] Hint Resolve grows_put_chain grows_put_NATIVE_TOKEN same_chains_emit same_chains_put_NATIVE_TOKEN
  : frame.

(** One step of a frame proof: follow the structure of the computation. *)
Ltac frame_order :=
  lazymatch goal with
  | |- PreOrder _ => apply _
  | |- _ => idtac
  end.
Ltac frame_step :=
  lazymatch goal with
  | |- respects _ (bind _ _) => apply respects_bind; frame_order; [ | intros ? ]
  | |- respects _ (ret _) => apply respects_ret; frame_order
  | |- respects _ (raise _ _) => apply respects_raise; frame_order
  | |- respects _ (lift _) => apply respects_lift; frame_order
  | |- respects _ (answer _ _ _) => apply respects_answer; frame_order
  | |- respects _ (emit _) => first [ apply same_chains_emit | apply grows_emit; done ]
  | |- respects _ (match ?x with _ => _ end) => destruct x
  | |- _ =>
      first [ solve [ eauto with frame typeclass_instances ]
            | progress unfold rpc, random_multiplayer, logger, _multiply,
                _get_token_params, _estimate_gas, fetch_fee_history, _get_fee,
                _get_l1_fee, _prepare_tx, get_balance, native_fee_spend,
                warn_correction, _validate_native_transfer_value, _get_allowance ]
  end.
Ltac frame := repeat frame_step.

Lemma sent_quiet evs tr : Forall not_submit evs -> sent (evs ++ tr) = sent tr.
Proof.
  induction 1 as [|e evs He _ IH]; [done|].
  cbn. rewrite <- IH. unfold sent at 1. cbn.
  destruct e as [c [] | | | | | |]; try done.
Qed.

Lemma sent_cons e tr :
  sent (e :: tr) = match e with
                   | EvRpc _ (Rpc_send_raw_transaction tx) => tx :: sent tr
                   | _ => sent tr
                   end.
Proof. by destruct e as [c [] | | | | | |]. Qed.

Lemma count_app k l1 l2 : count k (l1 ++ l2) = (count k l1 + count k l2)%nat.
Proof. unfold count. by rewrite filter_app, length_app. Qed.

Lemma count_none k evs : Forall (fun e => k e = false) evs -> count k evs = 0%nat.
Proof.
  unfold count. induction 1 as [|e evs He _ IH]; [done|].
  rewrite filter_cons. destruct (decide (k e = true)); [congruence | done].
Qed.

Lemma count_cons k e tr :
  count k (e :: tr) = if k e then S (count k tr) else count k tr.
Proof.
  unfold count. rewrite filter_cons.
  destruct (k e); destruct (decide _); try done.
Qed.

Lemma grows_sent s s' : grows not_submit s s' -> sent (trace s') = sent (trace s).
Proof. intros [evs [-> HF]]. by apply sent_quiet. Qed.

Lemma grows_count k s s' :
  grows (fun e => k e = false) s s' -> count k (trace s') = count k (trace s).
Proof. intros [evs [-> HF]]. rewrite count_app, count_none; done. Qed.

(** ** Running a computation backwards *)

Ltac run_prim H :=
  unfold ret, raise, lift, logger, emit, get_tick, get_chain, put_chain,
    get_NATIVE_TOKEN, put_NATIVE_TOKEN in H;
  simplify_eq.

(** Splits a run of [bind m f] into the run of [m] and the run of [f]. *)
Ltac run_bind H :=
  let a := fresh "a" in
  let s1 := fresh "s" in
  let e := fresh "e" in
  let H1 := fresh "Hrun" in
  let Hr := fresh "Hr" in
  apply bind_run in H as [(a & s1 & H1 & H) | (e & H & Hr)];
  [ | first [ discriminate Hr | injection Hr as -> | subst ] ].

Ltac is_prim m :=
  lazymatch m with
  | ret _ => idtac
  | raise _ _ => idtac
  | emit _ => idtac
  | logger _ _ => idtac
  | get_tick => idtac
  | get_chain _ => idtac
  | put_chain _ _ => idtac
  | get_NATIVE_TOKEN => idtac
  | put_NATIVE_TOKEN _ => idtac
  | _ => fail
  end.

(** Runs of the primitives are read off; binds of primitives are split. *)
Ltac run_prims :=
  repeat match goal with
         | H : ?m ?s = (_, _) |- _ => is_prim m; run_prim H
         | H : bind ?m _ _ = (_, _) |- _ => is_prim m; run_bind H
         end.

(** From a run [H] of [m], the relation [R] between its end states. *)
Ltac use_frame H R F :=
  lazymatch type of H with
  | ?m ?s = (?r, ?s') =>
      let HR := fresh in
      assert (HR : respects R m) by frame;
      pose proof (HR s r s' H) as F; clear HR
  end.

(** From a run [H] that neither signs nor submits: the submitted
    transactions are the same before and after. *)
Ltac quiet H :=
  let F := fresh "F" in
  use_frame H (grows not_submit) F; apply grows_sent in F.

(** Closes a goal about a run that stopped before the submission. *)
Ltac nothing_sent :=
  lazymatch goal with
  | |- (length (sent (trace ?a)) <= S (length (sent (trace ?b))))%nat /\ _ =>
      replace (sent (trace a)) with (sent (trace b)) by congruence;
      split; [lia | done]
  end.

(** Rewrites the transactions sent before the submission to those of the
    initial state of the goal. *)
Ltac sent_before :=
  lazymatch goal with
  | |- (length (_ :: sent (trace ?a)) <= S (length (sent (trace ?b))))%nat /\ _ =>
      replace (sent (trace a)) with (sent (trace b)) by congruence
  end.

(** ** Frames of the methods *)

Section MethodFrames.

Context (w : World) (self : Onchain).

Lemma rpc_grows {A} P c call (ans : ChainRef -> nat -> option A) :
  P (EvRpc c call) -> respects (grows P) (rpc c call ans).
Proof. intros HP. unfold rpc. frame. Qed.

Lemma rpc_same_chains {A} c call (ans : ChainRef -> nat -> option A) :
  respects same_chains (rpc c call ans).
Proof. unfold rpc. frame. Qed.

Lemma random_multiplayer_grows P range :
  P (EvRandom range) -> respects (grows P) (random_multiplayer w range).
Proof. intros HP. unfold random_multiplayer. frame. Qed.

Lemma random_multiplayer_same_chains range :
  respects same_chains (random_multiplayer w range).
Proof. unfold random_multiplayer. frame. Qed.

Lemma _multiply_grows P value range :
  P (EvRandom (Some range)) -> respects (grows P) (_multiply w self value range).
Proof. intros HP. frame. Qed.

Lemma _multiply_same_chains value range :
  respects same_chains (_multiply w self value range).
Proof. frame. Qed.

Lemma logger_grows P lvl msg : P (EvLog lvl msg) -> respects (grows P) (logger lvl msg).
Proof. intros HP. by apply grows_emit. Qed.

End MethodFrames.

#[global] Hint Extern 1 (respects (grows _) (rpc _ _ _)) =>
  apply rpc_grows; reflexivity : frame.
#[global] Hint Extern 1 (respects (grows _) (_multiply _ _ _ _)) =>
  apply _multiply_grows; reflexivity : frame.
#[global] Hint Extern 1 (respects (grows _) (random_multiplayer _ _)) =>
  apply random_multiplayer_grows; reflexivity : frame.
#[global] Hint Extern 1 (respects (grows _) (logger _ _)) =>
  apply logger_grows; reflexivity : frame.
#[global] Hint Resolve rpc_same_chains _multiply_same_chains
  random_multiplayer_same_chains : frame.

Section QuietMethods.

Context (w : World) (self : Onchain).

Lemma _get_token_params_quiet a : respects (grows not_submit) (_get_token_params w self a).
Proof. unfold _get_token_params. frame. Qed.

Lemma _estimate_gas_quiet tx : respects (grows not_submit) (_estimate_gas w self tx).
Proof. unfold _estimate_gas. frame. Qed.

Lemma _get_fee_quiet tx : respects (grows not_submit) (_get_fee w self tx).
Proof. unfold _get_fee, fetch_fee_history. frame. Qed.

Lemma _get_l1_fee_quiet tx : respects (grows not_submit) (_get_l1_fee w self tx).
Proof. unfold _get_l1_fee. frame. Qed.

Lemma _prepare_tx_quiet value to : respects (grows not_submit) (_prepare_tx w self value to).
Proof. frame. Qed.

Lemma get_balance_quiet token a : respects (grows not_submit) (get_balance w self token a).
Proof. frame. Qed.

Lemma native_fee_spend_quiet tx : respects (grows not_submit) (native_fee_spend w self tx).
Proof. frame. Qed.

Lemma _validate_native_transfer_value_quiet tx :
  respects (grows not_submit) (_validate_native_transfer_value w self tx).
Proof. frame. Qed.

Lemma _get_allowance_quiet token spender :
  respects (grows not_submit) (_get_allowance w self token spender).
Proof. unfold _get_allowance. frame. Qed.

End QuietMethods.

(** ** The priority fee picked by [_get_fee] *)

Lemma filter_all {A} (P : A -> Prop) `{!forall x, Decision (P x)} (l : list A) :
  Forall P l -> filter P l = l.
Proof.
  induction 1 as [|x l Hx _ IH]; [done|].
  by rewrite filter_cons_True, IH.
Qed.

(** In a sorted list, the element at position [i] has at least [i + 1]
    elements below or equal to it and at least [length l - i] above or
    equal to it. *)
Lemma sorted_middle (l : list Z) (i : nat) (x : Z) :
  StronglySorted Z.le l -> l !! i = Some x ->
  (i < length (filter (fun y => (y <= x)%Z) l))%nat /\
  (length l - i <= length (filter (fun y => (x <= y)%Z) l))%nat.
Proof.
  intros Hs Hi.
  pose proof (lookup_lt_Some _ _ _ Hi) as Hlt.
  rewrite <- (take_drop_middle l i x Hi) in Hs |- *.
  assert (Hlen : length (take i l) = i) by (rewrite length_take; lia).
  assert (Forall (fun y => y <= x) (take i l)) as Hlow.
  { apply Forall_forall. intros y Hy.
    eapply (StronglySorted_app_1_elem_of Z.le); [exact Hs | exact Hy | left]. }
  assert (Forall (fun y => x <= y) (x :: drop (S i) l)) as Hhigh.
  { apply StronglySorted_app_1_r in Hs. inversion Hs; subst.
    constructor; [lia | done]. }
  rewrite !filter_app, !length_app. split.
  - rewrite (filter_all _ _ Hlow), filter_cons_True by lia. cbn. lia.
  - rewrite (filter_all _ _ Hhigh). lia.
Qed.

#[local] Instance Z_le_total : Total Z.le.
Proof. intros x y. lia. Qed.

(** C4: in EIP-1559 fee computation the priority fee is taken from the
    non-zero reward samples (from [0] when there is none) by sorting them
    and picking the element at index [len // 2].  It is one of the samples,
    more than [len // 2] samples are below or equal to it, and at least
    [len - len // 2] are above or equal to it: the upper median.  For the
    samples 2, 4, 6, 8 it is 6. *)
Theorem median_priority_fee_upper_median (fee_history : FeeHistory) (l : list Z)
    (Hl : nonzero_rewards (default [[0]] (reward fee_history)) = Ok l) :
  let samples := or_zero l in
  exists x,
    median_priority_fee fee_history = Ok x /\
    merge_sort Z.le samples !! (length samples / 2)%nat = Some x /\
    x ∈ samples /\
    (length samples / 2 < length (filter (fun y => (y <= x)%Z) samples))%nat /\
    (length samples - length samples / 2
       <= length (filter (fun y => (x <= y)%Z) samples))%nat /\
    (samples = [2; 4; 6; 8] -> x = 6).
Proof.
  intros samples.
  assert (Hne : (0 < length samples)%nat).
  { subst samples. destruct l; cbn; lia. }
  pose proof (merge_sort_Permutation Z.le samples) as Hperm.
  assert (Hlt : (length samples / 2 < length (merge_sort Z.le samples))%nat).
  { rewrite (Permutation_length Hperm).
    apply Nat.div_lt; lia. }
  destruct (lookup_lt_is_Some_2 _ _ Hlt) as [x Hx].
  exists x. split; [|split; [exact Hx|]].
  { unfold median_priority_fee. rewrite Hl. fold samples. by rewrite Hx. }
  pose proof (StronglySorted_merge_sort Z.le samples) as Hs.
  destruct (sorted_middle _ _ _ Hs Hx) as [H1 H2].
  rewrite Hperm in H1, H2.
  repeat split; try done.
  - rewrite <- Hperm. eapply list_elem_of_lookup_2; eauto.
  - intros E. rewrite E in Hx. vm_compute in Hx. congruence.
Qed.

Lemma median_priority_fee_upper_median_witness :
  exists x, median_priority_fee (mkFeeHistory None (Some [[8]; [0]; [2]; [6]; [4]]) true) = Ok x
            /\ x = 6.
Proof.
  destruct (median_priority_fee_upper_median
              (mkFeeHistory None (Some [[8]; [0]; [2]; [6]; [4]]) true)
              [8; 2; 6; 4] eq_refl) as (x & H1 & H2 & _).
  exists x. split; [exact H1|]. vm_compute in H2. congruence.
Defined.

(** ** Runs of the primitives *)

Lemma rpc_run {A} c call (ans : ChainRef -> nat -> option A) s r s' :
  rpc c call ans s = (r, s') ->
  s' = push (EvRpc c call) s /\
  r = match ans c (tick s) with
      | Some a => Ok a
      | None => Raise (mkExc Web3Exception "rpc request failed")
      end.
Proof.
  unfold rpc, bind, get_tick, emit, answer, ret, raise.
  destruct (ans c (tick s)); intros H; by simplify_eq.
Qed.

Lemma rpc_Some {A} c call (ans : ChainRef -> nat -> option A) s a :
  ans c (tick s) = Some a -> rpc c call ans s = (Ok a, push (EvRpc c call) s).
Proof. intros H. unfold rpc, bind, get_tick, emit, answer, ret. by rewrite H. Qed.

Lemma rpc_None {A} c call (ans : ChainRef -> nat -> option A) s :
  ans c (tick s) = None ->
  rpc c call ans s =
    (Raise (mkExc Web3Exception "rpc request failed"), push (EvRpc c call) s).
Proof. intros H. unfold rpc, bind, get_tick, emit, answer, raise. by rewrite H. Qed.

Section SubmissionRuns.

Context (w : World) (self : Onchain).

Lemma _estimate_gas_run tx s tx' s' :
  _estimate_gas w self tx s = (Ok tx', s') -> exists gas, tx' = <["gas" := VInt gas]> tx.
Proof.
  unfold _estimate_gas. intros H. repeat (run_bind H). run_prims. eauto.
Qed.

Lemma _sign_and_send_run tx s r s' :
  _sign_and_send w self tx s = (r, s') ->
  (is_Ok r = true -> sent (trace s') = tx :: sent (trace s)) /\
  (length (sent (trace s')) <= S (length (sent (trace s))))%nat.
Proof.
  unfold _sign_and_send. intros H. run_prims.
  destruct (sign_transaction w tx (private_key (account self))).
  - run_bind H.
    + apply rpc_run in Hrun as [-> _]. apply rpc_run in H as [-> _].
      cbn [push trace]. rewrite !sent_cons. cbn [length]. split; [done|lia].
    + apply rpc_run in H as [-> _].
      cbn [push trace]. rewrite !sent_cons. cbn [length]. split; [done|lia].
  - run_prims. cbn [push trace]. rewrite !sent_cons. split; [done|lia].
Qed.

End SubmissionRuns.

(** ** The fee model of a chain *)

Lemma any_truthy fh :
  any (default [0] (baseFeePerGas fh)) = true -> FeeHistory_truthy fh = true.
Proof.
  unfold FeeHistory_truthy. destruct (baseFeePerGas fh); [done|].
  cbn. discriminate.
Qed.

Section FeeModel.

Context (w : World) (self : Onchain).

Lemma fee_history_requests_quiet s s' :
  grows not_fee_history s s' -> fee_history_requests self 0 s s'.
Proof.
  intros (evs & E & HF). exists evs. repeat split; [done | by apply count_none |].
  eapply Forall_impl; [exact HF|]. unfold not_fee_history. intros e H1 H2. congruence.
Qed.

Lemma fee_history_requests_after_fetch s s' :
  grows not_fee_history (push (fee_history_query self) s) s' -> fee_history_requests self 1 s s'.
Proof.
  intros (evs & E & HF). exists (evs ++ [fee_history_query self]). repeat split.
  - rewrite E. cbn. by rewrite <- app_assoc.
  - rewrite count_app, count_none; done.
  - apply Forall_app. split; [|by repeat constructor].
    eapply Forall_impl; [exact HF|]. unfold not_fee_history. intros e H1 H2. congruence.
Qed.

Lemma legacy_fee (tx : TxParams) s r s' :
  (gas_price <- rpc (chain self) Rpc_gas_price (rpc_gas_price w) ;;
   v <- _multiply w self gas_price fee_range ;;
   ret (<["gasPrice" := VInt v]> tx)) s = (r, s') ->
  grows not_fee_history s s' /\ chains s' = chains s.
Proof.
  intros H. use_frame H (grows not_fee_history) F1. use_frame H same_chains F2. done.
Qed.

Lemma eip1559_fee fee_history (tx : TxParams) s r s' :
  (base_fee <- lift (last_item (default [0] (baseFeePerGas fee_history))) ;;
   median_priority_fee <- lift (median_priority_fee fee_history) ;;
   priority_fee <- _multiply w self median_priority_fee fee_range ;;
   max_fee <- _multiply w self (base_fee + priority_fee) fee_range ;;
   ret (<["maxPriorityFeePerGas" := VInt priority_fee]>
          (<["maxFeePerGas" := VInt max_fee]>
             (<["type" := VStr "0x2"]> tx)))) s = (r, s') ->
  grows not_fee_history s s' /\ chains s' = chains s.
Proof.
  intros H. use_frame H (grows not_fee_history) F1. use_frame H same_chains F2. done.
Qed.

(** On a chain known to be EIP-1559: the fee history is fetched, the
    priority fee is the scaled median of its rewards, and the maximal fee
    is the scaled sum of the latest base fee and the priority fee. *)
Lemma _get_fee_eip1559_run tx s fee_history base_fee median priority_fee s2 max_fee s3 :
  is_eip1559 (chains s !!! chain self) = Some true ->
  rpc_fee_history w (chain self) (tick s) = Some fee_history ->
  last_item (default [0] (baseFeePerGas fee_history)) = Ok base_fee ->
  median_priority_fee fee_history = Ok median ->
  _multiply w self median fee_range (push (fee_history_query self) s)
  = (Ok priority_fee, s2) ->
  _multiply w self (base_fee + priority_fee) fee_range s2 = (Ok max_fee, s3) ->
  _get_fee w self tx s
  = (Ok (<["maxPriorityFeePerGas" := VInt priority_fee]>
           (<["maxFeePerGas" := VInt max_fee]>
              (<["type" := VStr "0x2"]> (default ∅ tx)))), s3).
Proof.
  intros Hflag Hfh Hbase Hmed Hp Hm. unfold _get_fee.
  rewrite bind_get_chain, Hflag, bind_ret, bind_get_chain, Hflag.
  unfold fetch_fee_history. rewrite (bind_Ok _ _ _ _ _ (rpc_Some _ _ _ _ _ Hfh)).
  rewrite Hbase, bind_lift_Ok, Hmed, bind_lift_Ok.
  rewrite (bind_Ok _ _ _ _ _ Hp). by rewrite (bind_Ok _ _ _ _ _ Hm).
Qed.

(** C3, as amended: the classification is made once.  A first call (flag
    unset) sends one fee-history request for 20 blocks at the 40th
    percentile and sets the flag to whether some base fee of the answer is
    non-zero.  Once the flag is set no call changes it; on a legacy chain no
    fee history is requested any more, and on an EIP-1559 chain every call
    requests one fresh fee history, from which it takes the base fee and the
    rewards: the priority fee is the scaled median of the rewards, and the
    maximal fee is the scaled sum of the latest base fee and the priority
    fee. *)
Theorem _get_fee_classification tx s r s'
    (Hrun : _get_fee w self tx s = (r, s')) :
  match is_eip1559 (chains s !!! chain self) with
  | None =>
      fee_history_requests self 1 s s' /\
      match rpc_fee_history w (chain self) (tick s) with
      | Some fee_history =>
          is_eip1559 (chains s' !!! chain self)
          = Some (any (default [0] (baseFeePerGas fee_history)))
      | None => chains s' = chains s
      end
  | Some false => fee_history_requests self 0 s s' /\ chains s' = chains s
  | Some true =>
      fee_history_requests self 1 s s' /\ chains s' = chains s /\
      (forall tx', r = Ok tx' ->
         exists fee_history base_fee median priority_fee s2 max_fee,
           rpc_fee_history w (chain self) (tick s) = Some fee_history /\
           last_item (default [0] (baseFeePerGas fee_history)) = Ok base_fee /\
           median_priority_fee fee_history = Ok median /\
           _multiply w self median fee_range (push (fee_history_query self) s)
           = (Ok priority_fee, s2) /\
           _multiply w self (base_fee + priority_fee) fee_range s2 = (Ok max_fee, s') /\
           tx' = <["maxPriorityFeePerGas" := VInt priority_fee]>
                   (<["maxFeePerGas" := VInt max_fee]>
                      (<["type" := VStr "0x2"]> (default ∅ tx))))
  end.
Proof.
  unfold _get_fee in Hrun.
  destruct (is_eip1559 (chains s !!! chain self)) as [[|]|] eqn:Hflag.
  - (* EIP-1559, known *)
    run_prims. rewrite Hflag in Hrun. run_prims. rewrite Hflag in Hrun.
    run_bind Hrun.
    + apply rpc_run in Hrun0 as [-> Hans].
      pose proof (eip1559_fee _ _ _ _ _ Hrun) as [F1 F2].
      split; [by apply fee_history_requests_after_fetch|]. split; [done|].
      intros tx' ->.
      match type of Hans with
      | Ok _ = match ?o with _ => _ end => destruct o as [fh|] eqn:Hfh; [|done]
      end.
      injection Hans as ->.
      destruct (last_item (default [0] (baseFeePerGas fh))) as [base_fee|] eqn:Hbase;
        [|by unfold bind, lift in Hrun].
      rewrite bind_lift_Ok in Hrun.
      destruct (median_priority_fee fh) as [median|] eqn:Hmed;
        [|by unfold bind, lift in Hrun].
      rewrite bind_lift_Ok in Hrun.
      run_bind Hrun. run_bind Hrun. run_prims.
      by eexists fh, base_fee, median, _, _, _.
    + apply rpc_run in Hrun as [-> _].
      split; [apply fee_history_requests_after_fetch; reflexivity|]. done.
  - (* legacy, known *)
    run_prims. rewrite Hflag in Hrun. run_prims. rewrite Hflag in Hrun.
    apply legacy_fee in Hrun as [F1 F2]. split; [|done].
    by apply fee_history_requests_quiet.
  - (* first call *)
    run_prims. rewrite Hflag in Hrun.
    run_bind Hrun.
    + run_bind Hrun0.
      * apply rpc_run in Hrun1 as [-> Hans]. run_prims.
        match type of Hans with
        | Ok _ = match ?o with _ => _ end => destruct o as [fh|] eqn:Hfh; [|done]
        end.
        simplify_eq.
        cbn [chains push] in Hrun. rewrite lookup_total_insert_eq in Hrun.
        cbn [is_eip1559 set_is_eip1559] in Hrun.
        destruct (any (default [0] (baseFeePerGas fh))) eqn:Hany.
        -- rewrite (any_truthy _ Hany) in Hrun. run_prims.
           apply eip1559_fee in Hrun as [F1 F2]. split.
           ++ apply fee_history_requests_after_fetch.
              destruct F1 as (evs & E & HF). by exists evs.
           ++ rewrite F2. cbn. by rewrite lookup_total_insert_eq.
        -- apply legacy_fee in Hrun as [F1 F2]. split.
           ++ apply fee_history_requests_after_fetch.
              destruct F1 as (evs & E & HF). by exists evs.
           ++ rewrite F2. cbn. by rewrite lookup_total_insert_eq.
    + run_bind Hrun; [run_prims|].
      apply rpc_run in Hrun as [-> Hans].
      match type of Hans with
      | Raise _ = match ?o with _ => _ end => destruct o as [fh|] eqn:Hfh; [done|]
      end.
      split; [|done]. apply fee_history_requests_after_fetch. reflexivity.
Qed.

End FeeModel.

(** ** Native transfers: the value that is finally sent *)

Section Native.

Context (w : World) (self : Onchain).

Lemma _get_l1_fee_keeps tx s a tx1 s1 k :
  _get_l1_fee w self tx s = (Ok (a, tx1), s1) -> k ≠ "data" -> tx1 !! k = tx !! k.
Proof.
  unfold _get_l1_fee. intros H Hk. run_prims. case_decide.
  - run_bind H. run_prims. by rewrite lookup_insert_ne.
  - by run_prims.
Qed.

Lemma native_fee_spend_keeps tx s fee tx1 s1 k :
  native_fee_spend w self tx s = (Ok (fee, tx1), s1) -> k ≠ "data" -> tx1 !! k = tx !! k.
Proof.
  unfold native_fee_spend. intros H Hk.
  run_bind H. destruct a as [l1 tx2]. cbn [fst snd] in H.
  repeat (run_bind H). run_prims.
  eapply _get_l1_fee_keeps; eauto.
Qed.

Lemma warn_correction_run balance amount to s :
  warn_correction self balance amount to s
  = (Ok tt, push (EvLog WARNING
                    (Msg_not_enough_sending_all (profile_number (account self))
                       (chain_native_token (chains s !!! chain self)) balance amount to)) s).
Proof. reflexivity. Qed.



Lemma raises_only_after_bind {A B} P err (m : M A) (f : A -> M B) :
  respects (grows P) m -> (forall a, raises_only_after P err (f a)) ->
  raises_only_after P err (bind m f).
Proof.
  intros Hm Hf s r s' H Hr. apply bind_run in H as [(a & s1 & H1 & H2)|(e & H1 & _)].
  - etrans; [eapply Hm | eapply Hf]; eauto.
  - eapply Hm; eauto.
Qed.

Lemma raises_only_after_quiet {A} P err (m : M A) :
  respects (grows P) m -> raises_only_after P err m.
Proof. intros Hm s r s' H _. eapply Hm; eauto. Qed.

Lemma _sign_and_send_not_ValueError tx s r s' msg :
  _sign_and_send w self tx s = (r, s') -> r ≠ Raise (mkExc ValueError msg).
Proof.
  unfold _sign_and_send. intros H. run_prims.
  destruct (sign_transaction w tx (private_key (account self))).
  - run_bind H.
    + apply rpc_run in H as [_ ->]. by case_match.
    + apply rpc_run in H as [_ Hr]. case_match; congruence.
  - by run_prims.
Qed.

(** A run of [send_token] that ends in a [ValueError] never reached the
    signature: it added no signing and no submission to the trace. *)
Lemma send_token_ValueError_before_submit to_address amount token msg :
  raises_only_after not_submit (mkExc ValueError msg)
    (send_token w self to_address amount token).
Proof.
  unfold send_token.
  apply raises_only_after_bind; [destruct token; frame | intros token1].
  apply raises_only_after_bind; [destruct amount; frame; destruct token1; frame | intros amount1].
  apply raises_only_after_bind; [destruct token1; frame | intros token2].
  apply raises_only_after_bind; [destruct (type_token token2); frame | intros p].
  apply raises_only_after_bind; [frame | intros tx].
  intros s r s' H Hr. run_bind H.
  - run_prims.
  - by apply _sign_and_send_not_ValueError with (msg := msg) in H.
Qed.

(** C2: when the value and the fee are not covered and the balance does not
    exceed the fee scaled by the safety margin (the corrected value is not
    positive), the validation raises the insufficient-funds error; and a
    [send_token] that ends in this error has signed and submitted nothing. *)
Theorem native_transfer_insufficient_funds
    (tx : TxParams) (v : Z) (s : State)
    (fee : Z) (tx1 : TxParams) (s1 : State) (balance : Amount) (s2 : State)
    (to : PyVal) (margin_fee : Z) (s3 : State)
    (Hvalue : tx !! "value" = Some (VInt v))
    (Hfee : native_fee_spend w self tx s = (Ok (fee, tx1), s1))
    (Hbalance : get_balance w self TokNone None s1 = (Ok balance, s2))
    (Hshort : wei balance - fee - v < 0)
    (Hto : tx1 !! "to" = Some to)
    (Hmargin : _multiply w self fee margin_range
                 (warn_correction self balance (Amount_wei v None) to s2).2
               = (Ok margin_fee, s3))
    (Hnothing : wei balance - margin_fee <= 0) :
  _validate_native_transfer_value w self tx s
  = (Raise InsufficientFunds,
     push (EvLog ERROR (Msg_not_enough (profile_number (account self)))) s3) /\
  count is_submit (trace s3) = count is_submit (trace s) /\
  forall to_address amount token s0 r s',
    send_token w self to_address amount token s0 = (r, s') ->
    r = Raise InsufficientFunds ->
    sent (trace s') = sent (trace s0) /\
    count is_submit (trace s') = count is_submit (trace s0).
Proof.
  split; [|split].
  - rewrite warn_correction_run in Hmargin. cbn [snd] in Hmargin.
    unfold _validate_native_transfer_value. rewrite Hvalue. cbn [as_int].
    rewrite bind_lift_Ok, (bind_Ok _ _ _ _ _ Hfee). cbn [fst snd].
    rewrite (bind_Ok _ _ _ _ _ Hbalance). cbn [Amount_wei wei].
    rewrite (proj2 (Z.leb_gt _ _)) by lia.
    rewrite Hto. cbn [answer]. rewrite bind_ret.
    rewrite (bind_Ok _ _ _ _ _ (warn_correction_run _ _ _ _)).
    rewrite (bind_Ok _ _ _ _ _ Hmargin).
    by rewrite (proj2 (Z.ltb_ge _ _) Hnothing).
  - use_frame Hfee (grows not_submit) F1. use_frame Hbalance (grows not_submit) F2.
    use_frame Hmargin (grows not_submit) F3.
    rewrite (grows_count is_submit _ _ F3), warn_correction_run. cbn [snd push trace].
    rewrite count_cons. cbn [is_submit].
    rewrite (grows_count is_submit _ _ F2). by apply (grows_count is_submit).
  - intros to_address amount token s0 r s' Hrun Hr.
    pose proof (send_token_ValueError_before_submit _ _ _ _ _ _ _ Hrun Hr) as F.
    split; [by apply grows_sent | by apply (grows_count is_submit)].
Qed.

(** The case of the spec: the balance is below the fee with its margin,
    and scaling the fee by the margin does not lower it. *)
Lemma native_transfer_fee_not_covered
    (tx : TxParams) (v : Z) (s : State)
    (fee : Z) (tx1 : TxParams) (s1 : State) (balance : Amount) (s2 : State)
    (to : PyVal) (margin_fee : Z) (s3 : State) :
  tx !! "value" = Some (VInt v) -> 0 <= v ->
  native_fee_spend w self tx s = (Ok (fee, tx1), s1) ->
  get_balance w self TokNone None s1 = (Ok balance, s2) ->
  wei balance < fee ->
  tx1 !! "to" = Some to ->
  _multiply w self fee margin_range
    (warn_correction self balance (Amount_wei v None) to s2).2 = (Ok margin_fee, s3) ->
  fee <= margin_fee ->
  (_validate_native_transfer_value w self tx s).1 = Raise InsufficientFunds.
Proof.
  intros Hvalue Hv Hfee Hbalance Hcover Hto Hmargin Hscale.
  unfold _validate_native_transfer_value. rewrite Hvalue. cbn [as_int].
  rewrite bind_lift_Ok, (bind_Ok _ _ _ _ _ Hfee). cbn [fst snd].
  rewrite (bind_Ok _ _ _ _ _ Hbalance). cbn [Amount_wei wei].
  rewrite (proj2 (Z.leb_gt _ _)) by lia.
  rewrite Hto. cbn [answer]. rewrite bind_ret.
  rewrite (bind_Ok _ _ _ _ _ (warn_correction_run _ _ _ _)).
  rewrite warn_correction_run in Hmargin. cbn [snd] in Hmargin.
  rewrite (bind_Ok _ _ _ _ _ Hmargin).
  by rewrite (proj2 (Z.ltb_ge _ _)) by lia.
Qed.

(** [_prepare_tx] records the requested value and the destination. *)
Lemma _prepare_tx_run (a : Amount) (to : Address) s tx s1 :
  to ≠ "" ->
  _prepare_tx w self (Some a) (Some to) s = (Ok tx, s1) ->
  tx !! "value" = Some (VInt (wei a)) /\ tx !! "to" = Some (VStr to).
Proof.
  intros Hto H. unfold _prepare_tx in H.
  run_bind H. run_bind H. run_prims.
  destruct to as [|c to]; [done|]. cbn [str_truthy]. by simplify_map_eq.
Qed.

(** A transfer without a token is a transfer of the shared native Token
    object, once its chain and symbol have been set. *)
Lemma send_token_no_token to_address amount s :
  send_token w self to_address amount TokNone s
  = let native :=
      mkToken (chain_native_token (chains s !!! chain self))
              (Token_address (NATIVE_TOKEN s)) (chain self)
              (Token_decimals (NATIVE_TOKEN s)) (type_token (NATIVE_TOKEN s)) in
    send_token w self to_address amount (TokObj native)
      (mkState (trace s) (chains s) native).
Proof. reflexivity. Qed.

(** A native transfer submits the parameters that the validation returned,
    with their value; an error of the validation ends the transfer. *)
Lemma send_token_native_run (t : Token) (a : Amount) to_address s tx s1 :
  type_token t = NATIVE ->
  _prepare_tx w self (Some a) (Some (to_checksum w to_address)) s = (Ok tx, s1) ->
  (forall e s2,
     _validate_native_transfer_value w self tx s1 = (Raise e, s2) ->
     send_token w self to_address (AmtObj a) (TokObj t) s = (Raise e, s2)) /\
  (forall tx' s2 v r s',
     _validate_native_transfer_value w self tx s1 = (Ok tx', s2) ->
     tx' !! "value" = Some (VInt v) ->
     send_token w self to_address (AmtObj a) (TokObj t) s = (r, s') ->
     is_Ok r = true ->
     exists sent_tx, sent (trace s') = sent_tx :: sent (trace s) /\
                     sent_tx !! "value" = Some (VInt v)).
Proof.
  intros Ht Hprep. split.
  - intros e s2 Hval. unfold send_token. rewrite !bind_ret, Ht.
    apply bind_Raise. rewrite (bind_Ok _ _ _ _ _ Hprep). by apply bind_Raise.
  - intros tx' s2 v r s' Hval Hv H Hok.
    quiet Hprep. quiet Hval.
    unfold send_token in H. rewrite !bind_ret, Ht in H.
    run_bind H; [|done].
    run_bind Hrun. rewrite Hprep in Hrun0. simplify_eq.
    run_bind Hrun. rewrite Hval in Hrun0. simplify_eq.
    rewrite Hv in Hrun. cbn [as_int] in Hrun. rewrite bind_lift_Ok in Hrun. run_prims.
    cbn [fst snd] in H.
    run_bind H; [|done].
    quiet Hrun. apply _estimate_gas_run in Hrun as [gas ->].
    run_bind H; [|done].
    apply _sign_and_send_run in Hrun as [Hsent _]. run_prims. cbn [push trace].
    rewrite sent_cons, Hsent by done. eexists. split; [f_equal; congruence|].
    by simplify_map_eq.
Qed.

End Native.

(** ** Tokens of another chain *)

Section CrossChain.

Context (w : World) (self : Onchain).

(** [get_balance] refuses a Token object of another chain, and does so
    before any request is sent. *)
Lemma get_balance_cross_chain (t : Token) address_arg s :
  Token_chain t ≠ chain self ->
  exists s', get_balance w self (TokObj t) address_arg s
             = (Raise CrossChainTokenMismatch, s') /\
             count is_network (trace s') = count is_network (trace s).
Proof.
  intros Hne. eexists. split.
  - unfold get_balance. rewrite bind_ret.
    destruct (decide (Token_chain t ≠ chain self)); [|done].
    rewrite !bind_get_chain. unfold logger. rewrite bind_emit. reflexivity.
  - cbn [push trace]. by rewrite count_cons.
Qed.

(** So does a transfer of an ERC-20 Token object of another chain. *)
Lemma send_token_cross_chain (t : Token) to_address amount s :
  Token_chain t ≠ chain self -> type_token t = ERC20 ->
  exists s', send_token w self to_address amount (TokObj t) s
             = (Raise CrossChainTokenMismatch, s') /\
             count is_network (trace s') = count is_network (trace s).
Proof.
  intros Hne Ht.
  destruct (get_balance_cross_chain t None s Hne) as (s' & Hb & Hc).
  exists s'. split; [|done].
  unfold send_token. rewrite bind_ret.
  destruct amount as [|a|n].
  - by rewrite (bind_Raise _ _ _ _ _ (bind_Raise _ _ _ _ _ Hb)).
  - rewrite !bind_ret, Ht. by rewrite (bind_Raise _ _ _ _ _ (bind_Raise _ _ _ _ _ Hb)).
  - rewrite !bind_ret, Ht. by rewrite (bind_Raise _ _ _ _ _ (bind_Raise _ _ _ _ _ Hb)).
Qed.

End CrossChain.

(** ** Approvals *)

Section Approve.

Context (w : World) (self : Onchain).

Lemma approve_no_token amount spender s :
  approve w self TokNone amount spender s = (Ok tt, s).
Proof. reflexivity. Qed.

Lemma approve_native (t : Token) amount spender s :
  type_token t = NATIVE -> approve w self (TokObj t) amount spender s = (Ok tt, s).
Proof. intros H. unfold approve. by rewrite H. Qed.

(** The amount that [approve] works with, for a token of [d] decimals. *)
Lemma _get_allowance_run (t : Token) spender s allowed :
  type_token t = ERC20 ->
  rpc_allowance w (chain self) (tick s) (Token_address t) (address (account self))
    (to_checksum w (spender_address spender)) = Some allowed ->
  _get_allowance w self (TokObj t) spender s
  = (Ok (Amount_wei allowed (Some (Token_decimals t))),
     push (EvRpc (chain self)
             (Rpc_allowance (Token_address t) (address (account self))
                (to_checksum w (spender_address spender)))) s).
Proof.
  intros Ht Ha. unfold _get_allowance. rewrite Ht.
  by erewrite bind_Ok by (by apply rpc_Some).
Qed.

(** Nothing is sent when the allowance already is what was asked for. *)
Lemma approve_skips (t : Token) (a : Amount) spender s allowed :
  type_token t = ERC20 ->
  rpc_allowance w (chain self) (tick s) (Token_address t) (address (account self))
    (to_checksum w (spender_address spender)) = Some allowed ->
  (wei a = 0 /\ allowed = 0) \/ (wei a ≠ 0 /\ wei a <= allowed) ->
  exists s', approve w self (TokObj t) (AmtObj a) spender s = (Ok tt, s') /\
             sent (trace s') = sent (trace s) /\
             count is_submit (trace s') = count is_submit (trace s).
Proof.
  intros Ht Ha Hskip. eexists. split.
  - unfold approve. rewrite Ht.
    rewrite (bind_Ok _ _ _ _ _ (_get_allowance_run t spender s allowed Ht Ha)).
    rewrite bind_ret. cbn [Amount_wei wei].
    destruct Hskip as [[-> ->]|[H1 H2]]; [done|].
    rewrite (proj2 (Z.eqb_neq _ _) H1). cbn [negb andb].
    by rewrite (proj2 (Z.leb_le _ _) H2).
  - cbn [push trace]. split; [done | by rewrite count_cons].
Qed.

(** Otherwise one [approve(spender, amount)] call on the token contract is
    sent when [approve] returns, and never more than one. *)
Lemma approve_sends_once (t : Token) (a : Amount) spender s allowed r s' :
  type_token t = ERC20 ->
  rpc_allowance w (chain self) (tick s) (Token_address t) (address (account self))
    (to_checksum w (spender_address spender)) = Some allowed ->
  ~ ((wei a = 0 /\ allowed = 0) \/ (wei a ≠ 0 /\ wei a <= allowed)) ->
  approve w self (TokObj t) (AmtObj a) spender s = (r, s') ->
  (length (sent (trace s')) <= S (length (sent (trace s))))%nat /\
  (r = Ok tt ->
   exists tx, sent (trace s') = tx :: sent (trace s) /\
              tx !! "data" = Some (VData (ApproveCall (spender_address spender) (wei a))) /\
              tx !! "to" = Some (VStr (Token_address t))).
Proof.
  intros Ht Ha Hneed H. unfold approve in H. rewrite Ht in H.
  rewrite (bind_Ok _ _ _ _ _ (_get_allowance_run t spender s allowed Ht Ha)) in H.
  rewrite bind_ret in H. cbn [Amount_wei wei] in H.
  assert ((wei a =? 0) && (allowed =? 0) = false) as E1.
  { apply andb_false_iff. destruct (Z.eqb_spec (wei a) 0), (Z.eqb_spec allowed 0); tauto. }
  assert (negb (wei a =? 0) && (wei a <=? allowed) = false) as E2.
  { apply andb_false_iff.
    destruct (Z.eqb_spec (wei a) 0), (Z.leb_spec (wei a) allowed); cbn; tauto. }
  rewrite E1, E2 in H. clear E1 E2.
  set (s0 := push _ s) in H.
  assert (Hs0 : sent (trace s0) = sent (trace s)) by done.
  run_bind H; [|use_frame H (grows not_submit) F; rewrite (grows_sent _ _ F), Hs0; split; [lia|done]].
  use_frame Hrun (grows not_submit) F1.
  run_bind H; [|use_frame H (grows not_submit) F; rewrite (grows_sent _ _ F), (grows_sent _ _ F1), Hs0; split; [lia|done]].
  use_frame Hrun0 (grows not_submit) F2.
  run_bind H; [|use_frame H (grows not_submit) F; rewrite (grows_sent _ _ F), (grows_sent _ _ F2), (grows_sent _ _ F1), Hs0; split; [lia|done]].
  use_frame Hrun1 (grows not_submit) F3.
  apply _estimate_gas_run in Hrun1 as [gas ->].
  assert (Hs3 : sent (trace s3) = sent (trace s)).
  { by rewrite (grows_sent _ _ F3), (grows_sent _ _ F2), (grows_sent _ _ F1). }
  run_bind H.
  - apply _sign_and_send_run in Hrun1 as [Hok Hle]. run_prims. cbn [push trace].
    rewrite sent_cons, Hok, Hs3 by done. split; [cbn [length]; lia|].
    intros _. eexists. split; [done|].
    unfold build_transaction. by simplify_map_eq.
  - apply _sign_and_send_run in H as [_ Hle]. rewrite Hs3 in Hle. done.
Qed.

(** C5: a token given by its contract address makes [approve] fail on its
    first line, whatever the allowance is: no allowance is read and no
    transaction is sent, also when an approval is needed. *)
Theorem approve_str_token_raises (a : Address) amount spender s :
  approve w self (TokStr a) amount spender s
  = (Raise (mkExc AttributeError "'str' object has no attribute 'type_token'"), s).
Proof. reflexivity. Qed.

End Approve.

(** ** ERC-20 transfers *)

Section Transfer.

Context (w : World) (self : Onchain).

(** The ERC-20 branch of [send_token] followed by the submission: the
    balance is read, the amount is cut down to it, and one [transfer] call
    with that amount is sent. *)
Lemma erc20_branch_run (token : Token) (amount : Amount) to_address
    s balance s1 r s' :
  get_balance w self (TokObj token) None s = (Ok balance, s1) ->
  (p <- (balance <- get_balance w self (TokObj token) None ;;
         let amount := if wei balance <? wei amount then balance else amount in
         tx_params <- _prepare_tx w self None None ;;
         ret (amount, build_transaction (Token_address token)
                        (TransferCall to_address (wei amount)) tx_params)) ;;
   tx_params <- _estimate_gas w self p.2 ;;
   tx_hash <- _sign_and_send w self tx_params ;;
   logger INFO (Msg_tx_sent (profile_number (account self)) p.1 (Token_symbol token)
                  to_address tx_hash) ;;;
   ret tx_hash) s = (r, s') ->
  (length (sent (trace s')) <= S (length (sent (trace s))))%nat /\
  (is_Ok r = true ->
   exists tx, sent (trace s') = tx :: sent (trace s) /\
              tx !! "data"
              = Some (VData (TransferCall to_address (Z.min (wei amount) (wei balance)))) /\
              tx !! "to" = Some (VStr (Token_address token))).
Proof.
  intros Hb H. quiet Hb.
  run_bind H.
  - run_bind Hrun. rewrite Hb in Hrun0. simplify_eq.
    run_bind Hrun. quiet Hrun0. run_prims. cbn [fst snd] in H.
    run_bind H; [|quiet H; nothing_sent].
    quiet Hrun. apply _estimate_gas_run in Hrun as [gas ->].
    run_bind H.
    + apply _sign_and_send_run in Hrun as [Hok Hle]. run_prims. cbn [push trace].
      rewrite sent_cons, Hok by done. sent_before. split; [cbn [length]; lia|].
      intros _. eexists. split; [done|].
      unfold build_transaction. simplify_map_eq. split; [|done].
      do 3 f_equal. case_match; lia.
    + apply _sign_and_send_run in H as [_ Hle].
      split; [|done]. etrans; [exact Hle|]. apply le_n_S, Nat.eq_le_incl. f_equal. congruence.
  - run_bind H; [|congruence]. rewrite Hb in Hrun. simplify_eq.
    run_bind H; [run_prims|]. quiet H. nothing_sent.
Qed.

(** An explicit amount for a Token object: what is sent is the smaller of
    the amount and the balance. *)
Lemma send_token_erc20_clamps (token : Token) (amount : Amount) to_address
    s balance s1 r s' :
  type_token token = ERC20 ->
  get_balance w self (TokObj token) None s = (Ok balance, s1) ->
  send_token w self to_address (AmtObj amount) (TokObj token) s = (r, s') ->
  (length (sent (trace s')) <= S (length (sent (trace s))))%nat /\
  (is_Ok r = true ->
   exists tx, sent (trace s') = tx :: sent (trace s) /\
              tx !! "data"
              = Some (VData (TransferCall (to_checksum w to_address)
                               (Z.min (wei amount) (wei balance)))) /\
              tx !! "to" = Some (VStr (Token_address token))).
Proof.
  intros Ht Hb H. unfold send_token in H. rewrite !bind_ret, Ht in H.
  eapply erc20_branch_run; eauto.
Qed.

(** A bare number is first scaled by the token's decimals. *)
Lemma send_token_number (token : Token) (n : PyNum) to_address s :
  send_token w self to_address (AmtNum n) (TokObj token) s
  = send_token w self to_address
      (AmtObj (Amount_of_number w n (Token_decimals token))) (TokObj token) s.
Proof. reflexivity. Qed.

(** No amount, for a Token object: the amount is the balance read when the
    request is made, cut down to the balance read before sending. *)
Lemma send_token_erc20_send_all (token : Token) to_address
    s balance s1 balance' s2 r s' :
  type_token token = ERC20 ->
  get_balance w self (TokObj token) None s = (Ok balance, s1) ->
  get_balance w self (TokObj token) None s1 = (Ok balance', s2) ->
  send_token w self to_address AmtNone (TokObj token) s = (r, s') ->
  (length (sent (trace s')) <= S (length (sent (trace s))))%nat /\
  (is_Ok r = true ->
   exists tx, sent (trace s') = tx :: sent (trace s) /\
              tx !! "data"
              = Some (VData (TransferCall (to_checksum w to_address)
                               (Z.min (wei balance) (wei balance')))) /\
              tx !! "to" = Some (VStr (Token_address token))).
Proof.
  intros Ht Hb Hb' H. unfold send_token in H. rewrite bind_ret in H.
  run_bind H; [|run_bind H; [run_prims|congruence]].
  run_bind Hrun. rewrite Hb in Hrun0. simplify_eq. run_prims.
  rewrite Ht in H.
  quiet Hb. rewrite <- F.
  eapply erc20_branch_run in H; [|exact Hb']. exact H.
Qed.

(** A contract address with an explicit amount: the token is looked up
    first, then the transfer goes as for a Token object. *)
Lemma send_token_str_clamps (a : Address) (amount : Amount) to_address
    s symbol d s1 balance s2 r s' :
  token_type_of w a = ERC20 ->
  _get_token_params w self a s = (Ok (symbol, d), s1) ->
  get_balance w self (TokObj (Token_new w self symbol a d)) None s1 = (Ok balance, s2) ->
  send_token w self to_address (AmtObj amount) (TokStr a) s = (r, s') ->
  (is_Ok r = true ->
   exists tx, sent (trace s') = tx :: sent (trace s) /\
              tx !! "data"
              = Some (VData (TransferCall (to_checksum w to_address)
                               (Z.min (wei amount) (wei balance)))) /\
              tx !! "to" = Some (VStr a)).
Proof.
  intros Ht Hp Hb H. unfold send_token in H. rewrite !bind_ret in H.
  run_bind H; [|run_bind H; [run_prims|congruence]].
  run_bind Hrun. rewrite Hp in Hrun0. simplify_eq. run_prims.
  cbn [fst snd] in H.
  change (type_token (Token_new w self symbol a d)) with (token_type_of w a) in H.
  rewrite Ht in H.
  quiet Hp. rewrite <- F.
  eapply erc20_branch_run in H; [|exact Hb]. apply H.
Qed.

(** C8: a send-all request for a token given by its contract address never
    sends anything.  The balance is read, and then the decimals are looked
    up on the address string, which raises [AttributeError]. *)
Theorem send_all_str_token_raises (a : Address) to_address s r s'
    (Hrun : send_token w self to_address AmtNone (TokStr a) s = (r, s')) :
  is_Ok r = false /\
  sent (trace s') = sent (trace s) /\
  forall balance s1,
    get_balance w self (TokStr a) None s = (Ok balance, s1) ->
    r = Raise (mkExc AttributeError "'str' object has no attribute 'decimals'") /\
    s' = s1.
Proof.
  unfold send_token in Hrun. rewrite bind_ret in Hrun.
  run_bind Hrun.
  - run_bind Hrun0; run_prims.
  - run_bind Hrun.
    + use_frame Hrun0 (grows not_submit) F. run_prims.
      split; [done|]. split; [by apply grows_sent|].
      intros balance s1 Hb. rewrite Hrun0 in Hb. simplify_eq. split; reflexivity.
    + use_frame Hrun (grows not_submit) F.
      split; [done|]. split; [by apply grows_sent|].
      intros balance s1 Hb. rewrite Hrun in Hb. discriminate.
Qed.

End Transfer.

(** ** Approvals of a token of another chain *)

(** [approve] never looks at the chain of the token. *)
Lemma approve_chain_irrelevant w self (t : Token) (c : ChainRef) amount spender s :
  approve w self (TokObj t) amount spender s
  = approve w self
      (TokObj (mkToken (Token_symbol t) (Token_address t) c (Token_decimals t)
                 (type_token t))) amount spender s.
Proof. reflexivity. Qed.

(** C6: an approval of a token that belongs to another chain is not
    refused.  With the token declared for chain object 1 and the active
    chain being chain object 0, [approve] returns normally after seven
    requests of its own to the node of the active chain, one of which
    submits an [approve] call to the token address.  A transfer of the native Token
    object of the other chain is not refused either. *)
Theorem approve_ignores_token_chain :
  let w := sample_world 3 100 300 50 (always 3) in
  let s := sample_state (Some false) in
  let run := approve w sample_self (TokObj usdt_bsc) (AmtObj (mkAmount 100 6))
               (SpStr "0xSp") s in
  let transfer := send_token w sample_self "0xB0b" (AmtObj (mkAmount 10 18))
                    (TokObj bnb) s in
  Token_chain usdt_bsc ≠ chain sample_self /\
  run.1 = Ok tt /\
  count is_network (trace run.2) = 7%nat /\
  map (fun tx => (tx !! "to", tx !! "data")) (sent (trace run.2))
  = [(Some (VStr "0xUSDT"), Some (VData (ApproveCall "0xSp" 100)))] /\
  Token_chain bnb ≠ chain sample_self /\
  is_Ok transfer.1 = true /\
  map (fun tx => (tx !! "to", tx !! "value")) (sent (trace transfer.2))
  = [(Some (VStr "0xB0b"), Some (VInt 10))].
Proof. split; [done|]. vm_compute. done. Qed.

(** ** Bulk revocation *)

Section Revoke.

Context (w : World) (self : Onchain).

Lemma sends_at_most_one_quiet {A} (m : M A) :
  respects (grows not_submit) m -> sends_at_most_one m.
Proof. intros Hm s r s' H. rewrite (grows_sent _ _ (Hm _ _ _ H)). lia. Qed.

Lemma sends_at_most_one_bind {A B} (m : M A) (f : A -> M B) :
  respects (grows not_submit) m -> (forall a, sends_at_most_one (f a)) ->
  sends_at_most_one (bind m f).
Proof.
  intros Hm Hf s r s' H. apply bind_run in H as [(a & s1 & H1 & H2)|(e & H1 & _)].
  - rewrite <- (grows_sent _ _ (Hm _ _ _ H1)). by eapply Hf.
  - rewrite (grows_sent _ _ (Hm _ _ _ H1)). lia.
Qed.

Lemma sends_at_most_one_then {A B} (m : M A) (f : A -> M B) :
  sends_at_most_one m -> (forall a, respects (grows not_submit) (f a)) ->
  sends_at_most_one (bind m f).
Proof.
  intros Hm Hf s r s' H. apply bind_run in H as [(a & s1 & H1 & H2)|(e & H1 & _)].
  - rewrite (grows_sent _ _ (Hf _ _ _ _ H2)). by eapply Hm.
  - by eapply Hm.
Qed.

Lemma _sign_and_send_at_most_one tx : sends_at_most_one (_sign_and_send w self tx).
Proof. intros s r s' H. by apply _sign_and_send_run in H as [_ H]. Qed.

(** Whatever its arguments, [approve] sends at most one transaction. *)
Lemma approve_at_most_one token amount spender :
  sends_at_most_one (approve w self token amount spender).
Proof.
  unfold approve.
  destruct token as [|t|a]; try solve [apply sends_at_most_one_quiet; frame].
  destruct (type_token t); [solve [apply sends_at_most_one_quiet; frame]|].
  apply sends_at_most_one_bind; [frame | intros allowed].
  apply sends_at_most_one_bind; [destruct amount as [| |[]]; frame | intros a].
  destruct (_ && _); [solve [apply sends_at_most_one_quiet; frame]|].
  destruct (_ && _); [solve [apply sends_at_most_one_quiet; frame]|].
  apply sends_at_most_one_bind; [frame | intros tx0].
  apply sends_at_most_one_bind; [frame | intros tx1].
  apply sends_at_most_one_bind; [frame | intros tx2].
  apply sends_at_most_one_then; [apply _sign_and_send_at_most_one | intros h; frame].
Qed.

Lemma revoke_one_at_most_one item cache :
  sends_at_most_one (revoke_one w self item cache).
Proof.
  unfold revoke_one.
  apply sends_at_most_one_bind; [frame | intros p].
  apply sends_at_most_one_then; [apply approve_at_most_one | intros u; frame].
Qed.

Lemma revoke_each_all items c s c' s' :
  revoked w self items c s c' s' -> revoke_each w self items c s = (Ok tt, s').
Proof.
  induction 1 as [|item items c s c1 s1 c2 s2 H1 _ IH]; [done|].
  cbn [revoke_each]. by rewrite (bind_Ok _ _ _ _ _ H1).
Qed.

(** C7, as amended: the pairs are revoked one after the other, each by its
    own call of [approve] with amount 0, which sends at most one
    transaction.  When the revocation of a pair raises, the exception
    leaves the loop in the state of the failure: the pairs that follow are
    not attempted. *)
Theorem revoke_each_stops_at_failure
    (done_items : list (Address * Address)) (item : Address * Address)
    (rest : list (Address * Address)) c s c1 s1 e s2
    (Hdone : revoked w self done_items c s c1 s1)
    (Hfail : revoke_one w self item c1 s1 = (Raise e, s2)) :
  revoke_each w self (done_items ++ item :: rest) c s = (Raise e, s2) /\
  (length (sent (trace s2)) <= S (length (sent (trace s1))))%nat /\
  (length (sent (trace s1)) <= length done_items + length (sent (trace s)))%nat.
Proof.
  split; [|split].
  - induction Hdone as [|i items c s c1 s1 c2 s3 H1 _ IH].
    + cbn [app revoke_each]. by rewrite (bind_Raise _ _ _ _ _ Hfail).
    + cbn [app revoke_each]. rewrite (bind_Ok _ _ _ _ _ H1). by apply IH.
  - by eapply revoke_one_at_most_one.
  - clear Hfail. induction Hdone as [|i items c s c1 s1 c2 s3 H1 _ IH]; [cbn; lia|].
    apply revoke_one_at_most_one in H1. cbn [length]. lia.
Qed.

(** [remove_approves] runs the loop over the distinct pairs of the logs. *)
Lemma remove_approves_run s response approved :
  ETHERSCAN_API_KEY w ≠ "" ->
  http_getLogs w (tick s) (chain_id (chains s !!! chain self)) (address (account self))
  = Some response ->
  default [] response ≠ [] ->
  collect_approved (default [] response) ∅ = Ok approved ->
  NoDup (elements approved) /\
  remove_approves w self s
  = revoke_each w self (elements approved) ∅
      (push (EvHttp_getLogs (chain_id (chains s !!! chain self))
               (address (account self))) s).
Proof.
  intros Hkey Hlogs Hne Hset. split; [apply NoDup_elements|].
  unfold remove_approves. destruct (decide (ETHERSCAN_API_KEY w = "")); [done|].
  assert (Hrun : _get_approval_logs w self s
                 = (Ok (default [] response),
                    push (EvHttp_getLogs (chain_id (chains s !!! chain self))
                            (address (account self))) s)).
  { unfold _get_approval_logs, bind, get_chain, get_tick, emit, answer.
    by rewrite Hlogs. }
  rewrite (bind_Ok _ _ _ _ _ Hrun).
  destruct (default [] response) as [|l logs] eqn:E; [done|].
  by rewrite Hset, bind_lift_Ok.
Qed.

End Revoke.

(** C7, as stated, fails: with two pairs to revoke and a node whose gas
    estimation fails once, the revocation of the first pair raises,
    [remove_approves] raises with it, and the second pair is never
    attempted, although its revocation would have gone through. *)
Lemma remove_approves_aborts_on_first_failure :
  let w := sample_world 3 100 300 50 flaky in
  let run := remove_approves w sample_self (sample_state (Some false)) in
  (exists approved, collect_approved sample_logs ∅ = Ok approved /\
                    token_A_pair ∈ approved /\ token_B_pair ∈ approved) /\
  is_Ok run.1 = false /\
  attempted w (trace run.2) token_A_pair = true /\
  attempted w (trace run.2) token_B_pair = false /\
  is_Ok (revoke_one w sample_self token_B_pair ∅ run.2).1 = true.
Proof.
  split.
  - eexists. split; [reflexivity|].
    split; apply (bool_decide_unpack _); vm_compute; exact I.
  - vm_compute. done.
Qed.

(** ** Gas price *)

(** C9, as stated, fails: with a gas price of 1.5 gwei, [get_gas_price]
    returns the bare float 1.5. *)
Lemma get_gas_price_returns_float :
  (get_gas_price (sample_world 1500000000 100 300 50 (always 3)) sample_self true
     (sample_state (Some false))).1
  = Ok (NFloat (literal 150)).
Proof. vm_compute. reflexivity. Qed.

Lemma get_gas_price_gwei w self (price : Z) f s :
  rpc_gas_price w (chain self) (tick s) = Some price ->
  int_truediv price (10 ^ 9) = Ok f ->
  get_gas_price w self true s = (Ok (NFloat f), push (EvRpc (chain self) Rpc_gas_price) s).
Proof.
  intros Hprice Hf. unfold get_gas_price.
  rewrite (bind_Ok _ _ _ _ _ (rpc_Some _ _ _ _ _ Hprice)). by rewrite Hf.
Qed.

(** A poll that finds the price at or below the limit ends the wait. *)
Lemma gas_price_wait_loop_done w self fuel (gas_limit price : Z) f s :
  rpc_gas_price w (chain self) (tick s) = Some price ->
  int_truediv price (10 ^ 9) = Ok f ->
  gt_int f gas_limit = false ->
  gas_price_wait_loop w (S fuel) self gas_limit s
  = (Ok true, push (EvRpc (chain self) Rpc_gas_price) s).
Proof.
  intros Hprice Hf Hle. cbn [gas_price_wait_loop].
  rewrite (bind_Ok _ _ _ _ _ (get_gas_price_gwei _ _ _ _ _ Hprice Hf)).
  cbn [num_gt_int]. by rewrite Hle.
Qed.

(** A poll that finds the price above the limit sleeps and polls again. *)
Lemma gas_price_wait_loop_again w self fuel (gas_limit price : Z) f s :
  rpc_gas_price w (chain self) (tick s) = Some price ->
  int_truediv price (10 ^ 9) = Ok f ->
  gt_int f gas_limit = true ->
  gas_price_wait_loop w (S fuel) self gas_limit s
  = gas_price_wait_loop w fuel self gas_limit
      (push EvSleep (push (EvRpc (chain self) Rpc_gas_price) s)).
Proof.
  intros Hprice Hf Hgt. cbn [gas_price_wait_loop].
  rewrite (bind_Ok _ _ _ _ _ (get_gas_price_gwei _ _ _ _ _ Hprice Hf)).
  cbn [num_gt_int]. by rewrite Hgt.
Qed.

(** C9, as amended: balances are [Amount]s, an integer number of minor
    units with the decimals of the token; an amount passed as a bare number
    is made an [Amount] with the decimals of the token; [get_gas_price]
    returns a bare number, the integer price in wei when [gwei] is false and
    the float quotient of the price by [10 ** 9] when [gwei] is true;
    [gas_price_wait] compares that number with its bare limit, and sleeps
    and polls again while the number is above the limit. *)
Theorem get_gas_price_bare_number w self s (price : Z)
    (Hprice : rpc_gas_price w (chain self) (tick s) = Some price) :
  (get_gas_price w self false s).1 = Ok (NInt price) /\
  (get_gas_price w self true s).1
  = match int_truediv price (10 ^ 9) with
    | Ok f => Ok (NFloat f)
    | Raise e => Raise e
    end /\
  (forall (t : Token) (b : Z),
     Token_chain t = chain self -> type_token t = ERC20 ->
     rpc_balanceOf w (chain self) (tick s) (Token_address t)
       (to_checksum w (address (account self))) = Some b ->
     (get_balance w self (TokObj t) None s).1 = Ok (mkAmount b (Token_decimals t))) /\
  (forall (t : Token) (n : PyNum) to_address spender,
     send_token w self to_address (AmtNum n) (TokObj t) s
     = send_token w self to_address
         (AmtObj (mkAmount (number_to_wei w n (Token_decimals t)) (Token_decimals t)))
         (TokObj t) s /\
     approve w self (TokObj t) (AmtNum n) spender s
     = approve w self (TokObj t)
         (AmtObj (mkAmount (number_to_wei w n (Token_decimals t)) (Token_decimals t)))
         spender s) /\
  (forall fuel (gas_limit : Z) f,
     int_truediv price (10 ^ 9) = Ok f ->
     gas_price_wait_loop w (S fuel) self gas_limit s
     = if gt_int f gas_limit
       then gas_price_wait_loop w fuel self gas_limit
              (push EvSleep (push (EvRpc (chain self) Rpc_gas_price) s))
       else (Ok true, push (EvRpc (chain self) Rpc_gas_price) s)).
Proof.
  split; [|split; [|split; [|split]]].
  - unfold get_gas_price. by rewrite (bind_Ok _ _ _ _ _ (rpc_Some _ _ _ _ _ Hprice)).
  - unfold get_gas_price. rewrite (bind_Ok _ _ _ _ _ (rpc_Some _ _ _ _ _ Hprice)).
    unfold bind, lift. by destruct (int_truediv price (10 ^ 9)).
  - intros t b Hc Ht Hb. unfold get_balance. rewrite bind_ret.
    destruct (decide (Token_chain t ≠ chain self)); [done|].
    rewrite Ht. cbn [str_truthy default].
    by erewrite bind_Ok by (by apply rpc_Some).
  - intros t n to_address spender. split; [reflexivity|].
    unfold approve. by destruct (type_token t).
  - intros fuel gas_limit f Hf. destruct (gt_int f gas_limit) eqn:Hgt.
    + by eapply gas_price_wait_loop_again.
    + by eapply gas_price_wait_loop_done.
Qed.

(** ** The session wrapper *)

Section BotExit.

Context (w : World) (self : Account).

(** C10, as amended: provided [close_browser] returns, [__exit__] returns
    [True] whatever the body of [with Bot(account)] did, so that the [with]
    statement ends normally after every exception of any type.  What
    tells a failed session from a successful one is the one line that
    [__exit__] logs after closing the browser: at level SUCCESS exactly
    when the body returned; for an exception, at ERROR with the timeout
    message when its type is [TimeoutError] or a subclass, at ERROR with
    the exception text when that text mentions a missing page, and at
    CRITICAL with the exception text otherwise. *)
Theorem Bot_exit_suppresses_every_exception {A} (body : Account -> M A) s
    (r : Result A) s1
    (Hbody : body self s = (r, s1))
    (Hclose : close_browser w (tick s1) = true) :
  exists lvl msg,
    Bot.__exit__ w self (match r with Ok _ => None | Raise e => Some e end) s1
    = (Ok true, push (EvLog lvl msg) (push EvCloseBrowser s1)) /\
    Bot.with_Bot w self body s
    = (match r with Ok a => Ok (Some a) | Raise _ => Ok None end,
       push (EvLog lvl msg) (push EvCloseBrowser s1)) /\
    (lvl = SUCCESS <-> is_Ok r = true) /\
    match r with
    | Ok _ => msg = Msg_account_done (profile_number self)
    | Raise e =>
        if issubclass_TimeoutError (exc_type e)
        then lvl = ERROR /\ msg = Msg_account_timeout (profile_number self)
        else if Bot.contains "object has no attribute: page" (exc_val e)
             then lvl = ERROR /\
                  msg = Msg_account_no_page (profile_number self) (exc_val e)
             else lvl = CRITICAL /\
                  msg = Msg_account_failed (profile_number self) (exc_val e)
    end.
Proof.
  assert (Hexit : forall exc lvl msg,
            (match exc with
             | None => logger SUCCESS (Msg_account_done (profile_number self))
             | Some e =>
                 if issubclass_TimeoutError (exc_type e)
                 then logger ERROR (Msg_account_timeout (profile_number self))
                 else if Bot.contains "object has no attribute: page" (exc_val e)
                      then logger ERROR
                             (Msg_account_no_page (profile_number self) (exc_val e))
                      else logger CRITICAL
                             (Msg_account_failed (profile_number self) (exc_val e))
             end) = logger lvl msg ->
            Bot.__exit__ w self exc s1
            = (Ok true, push (EvLog lvl msg) (push EvCloseBrowser s1))).
  { intros exc lvl msg E. unfold Bot.__exit__, bind, get_tick, emit.
    rewrite Hclose. cbn [ret]. by rewrite E. }
  unfold Bot.with_Bot, Bot.__enter__. rewrite bind_ret, Hbody.
  destruct r as [a|e].
  - exists SUCCESS, (Msg_account_done (profile_number self)).
    rewrite (Hexit None _ _ eq_refl). by repeat split.
  - destruct (issubclass_TimeoutError (exc_type e)) eqn:Ht;
      [|destruct (Bot.contains "object has no attribute: page" (exc_val e)) eqn:Hp].
    + exists ERROR, (Msg_account_timeout (profile_number self)).
      rewrite (Hexit (Some e) ERROR (Msg_account_timeout (profile_number self)))
        by (by rewrite Ht).
      by repeat split.
    + exists ERROR, (Msg_account_no_page (profile_number self) (exc_val e)).
      rewrite (Hexit (Some e) ERROR
                 (Msg_account_no_page (profile_number self) (exc_val e)))
        by (by rewrite Ht, Hp).
      by repeat split.
    + exists CRITICAL, (Msg_account_failed (profile_number self) (exc_val e)).
      rewrite (Hexit (Some e) CRITICAL
                 (Msg_account_failed (profile_number self) (exc_val e)))
        by (by rewrite Ht, Hp).
      by repeat split.
Qed.

End BotExit.

(** * The theorems at work *)

(** C3, as stated, fails: on a chain already known to be EIP-1559, a fee
    computation requests the fee history again. *)
Lemma _get_fee_requeries_fee_history :
  let w := sample_world 3 100 300 50 (always 3) in
  let s := sample_state (Some true) in
  let run := _get_fee w sample_self None s in
  is_eip1559 (chains s !!! chain sample_self) = Some true /\
  is_Ok run.1 = true /\
  count is_fee_history (trace s) = 0%nat /\
  count is_fee_history (trace run.2) = 1%nat.
Proof. vm_compute. done. Qed.

(** A first call on the sample chain: one request, and the chain is
    classified as EIP-1559 because the base fees 5 and 7 are not zero. *)
Lemma _get_fee_classification_witness :
  let w := sample_world 3 100 300 50 (always 3) in
  let s := sample_state None in
  let run := _get_fee w sample_self None s in
  fee_history_requests sample_self 1 s run.2 /\
  is_eip1559 (chains run.2 !!! chain sample_self) = Some true.
Proof.
  intros w s run.
  exact (_get_fee_classification w sample_self None s run.1 run.2
           (surjective_pairing run)).
Defined.


(** Balance 5, fee 10 with its margin: the transfer is refused. *)
Lemma native_transfer_insufficient_funds_witness :
  let w := sample_world 3 5 300 50 (always 3) in
  let s := sample_state (Some false) in
  (_validate_native_transfer_value w sample_self sample_tx s).1 = Raise InsufficientFunds /\
  let run := send_token w sample_self "0xB0b" (AmtObj (mkAmount 95 18)) TokNone s in
  run.1 = Raise InsufficientFunds /\
  sent (trace run.2) = [] /\ count is_submit (trace run.2) = 0%nat.
Proof.
  intros w s.
  pose (r1 := native_fee_spend w sample_self sample_tx s).
  pose (r2 := get_balance w sample_self TokNone None r1.2).
  pose (r3 := _multiply w sample_self 10 margin_range
                (warn_correction sample_self (mkAmount 5 18) (Amount_wei 95 None)
                   (VStr "0xB0b") r2.2).2).
  destruct (native_transfer_insufficient_funds w sample_self sample_tx 95 s 10 sample_tx
              r1.2 (mkAmount 5 18) r2.2 (VStr "0xB0b") 12 r3.2)
    as (Hrun & _ & Hsend);
    [vm_compute; reflexivity .. | cbn [wei]; lia | vm_compute; reflexivity
    | vm_compute; reflexivity | cbn [wei]; lia |].
  split; [by rewrite Hrun|].
  intros run.
  assert (Hr : run.1 = Raise InsufficientFunds) by (vm_compute; reflexivity).
  split; [exact Hr|].
  exact (Hsend "0xB0b" (AmtObj (mkAmount 95 18)) TokNone s run.1 run.2
           (surjective_pairing run) Hr).
Defined.

(** A send-all request for the contract address of a token. *)
Lemma send_all_str_token_raises_witness :
  let w := sample_world 3 100 300 50 (always 3) in
  let s := sample_state (Some false) in
  let run := send_token w sample_self "0xB0b" AmtNone (TokStr "0xUSDT") s in
  is_Ok run.1 = false /\ sent (trace run.2) = [] /\
  run.1 = Raise (mkExc AttributeError "'str' object has no attribute 'decimals'").
Proof.
  intros w s run.
  destruct (send_all_str_token_raises w sample_self "0xUSDT" "0xB0b" s run.1 run.2
              (surjective_pairing run)) as (H1 & H2 & H3).
  split; [exact H1|]. split; [exact H2|].
  pose (b := get_balance w sample_self (TokStr "0xUSDT") None s).
  destruct (H3 (mkAmount 300 6) b.2) as [H4 _]; [vm_compute; reflexivity|].
  exact H4.
Defined.

(** The first pair fails on the flaky node; the second pair is left alone. *)
Lemma revoke_each_stops_at_failure_witness :
  let w := sample_world 3 100 300 50 flaky in
  let s := sample_state (Some false) in
  exists e s2,
    revoke_each w sample_self [token_A_pair; token_B_pair] ∅ s = (Raise e, s2) /\
    attempted w (trace s2) token_B_pair = false.
Proof.
  intros w s.
  pose (r := revoke_one w sample_self token_A_pair ∅ s).
  exists (mkExc Web3Exception "rpc request failed"), r.2.
  split; [|vm_compute; reflexivity].
  apply (revoke_each_stops_at_failure w sample_self [] token_A_pair [token_B_pair]
           ∅ s ∅ s); [constructor | vm_compute; reflexivity].
Defined.

Lemma get_gas_price_bare_number_witness :
  let w := sample_world 1500000000 100 300 50 (always 3) in
  let s := sample_state (Some false) in
  (get_gas_price w sample_self false s).1 = Ok (NInt 1500000000) /\
  (get_gas_price w sample_self true s).1 = Ok (NFloat (literal 150)) /\
  (get_balance w sample_self (TokObj usdt) None s).1 = Ok (mkAmount 300 6).
Proof.
  intros w s.
  destruct (get_gas_price_bare_number w sample_self s 1500000000 eq_refl)
    as (H1 & H2 & H3 & _).
  split; [exact H1|]. split; [rewrite H2; vm_compute; reflexivity|].
  apply H3; reflexivity.
Defined.

(** C10, as stated, fails: when the browser cannot be closed, [__exit__]
    does not return [True] for the [ValueError] of the body but raises, and
    the [with] statement ends with an error. *)
Lemma Bot_exit_raises_when_close_browser_raises :
  let body := fun _ : Account => @raise unit ValueError insufficient_funds_msg in
  let s := sample_state None in
  (body sample_account s).1 = Raise InsufficientFunds /\
  is_Ok (Bot.__exit__ world_with_stuck_browser sample_account (Some InsufficientFunds) s).1
  = false /\
  is_Ok (Bot.with_Bot world_with_stuck_browser sample_account body s).1 = false.
Proof. vm_compute. done. Qed.

(** A session whose body raises a [ValueError] ends normally, with one
    line at level CRITICAL. *)
Lemma Bot_exit_suppresses_every_exception_witness :
  let w := sample_world 3 100 300 50 (always 3) in
  let body := fun _ : Account => @raise unit ValueError insufficient_funds_msg in
  let s := sample_state None in
  Bot.with_Bot w sample_account body s
  = (Ok None,
     push (EvLog CRITICAL (Msg_account_failed 7 insufficient_funds_msg))
       (push EvCloseBrowser s)).
Proof.
  intros w body s.
  destruct (Bot_exit_suppresses_every_exception w sample_account body s
              (Raise InsufficientFunds) s eq_refl eq_refl)
    as (lvl & msg & _ & Hwith & _ & Hline).
  assert (Ht : issubclass_TimeoutError (exc_type InsufficientFunds) = false)
    by reflexivity.
  assert (Hp : Bot.contains "object has no attribute: page" (exc_val InsufficientFunds)
               = false) by (vm_compute; reflexivity).
  cbv beta iota in Hline. rewrite Ht, Hp in Hline. destruct Hline as [-> ->].
  exact Hwith.
Defined.

(** The examples of the spec for approvals of a Token object: allowance 150
    for a request of 100 sends nothing, allowance 50 sends one
    [approve(spender, 100)], and a revocation of an allowance that is
    already 0 sends nothing. *)
Lemma approve_examples :
  let s := sample_state (Some false) in
  let approved allowance amount :=
    map (fun tx => tx !! "data")
      (sent (trace (approve (sample_world 3 100 300 allowance (always 3)) sample_self
                      (TokObj usdt) (AmtObj (mkAmount amount 6)) (SpStr "0xSp") s).2)) in
  approved 150 100 = [] /\
  approved 50 100 = [Some (VData (ApproveCall "0xSp" 100))] /\
  approved 0 0 = [] /\
  approved 50 0 = [Some (VData (ApproveCall "0xSp" 0))].
Proof. vm_compute. done. Qed.

(** The example of the spec for token transfers: 1000 requested against a
    balance of 300 sends 300. *)
Lemma send_token_erc20_example :
  let w := sample_world 3 100 300 50 (always 3) in
  let run := send_token w sample_self "0xB0b" (AmtObj (mkAmount 1000 6)) (TokObj usdt)
               (sample_state (Some false)) in
  map (fun tx => tx !! "data") (sent (trace run.2))
  = [Some (VData (TransferCall "0xB0b" 300))].
Proof. vm_compute. done. Qed.

(** Three logs of two pairs give two revocations. *)
Lemma remove_approves_example :
  let w := sample_world 3 100 300 50 (always 3) in
  let run := remove_approves w sample_self (sample_state (Some false)) in
  run.1 = Ok tt /\ length sample_logs = 3%nat /\ length (sent (trace run.2)) = 2%nat.
Proof. vm_compute. done. Qed.

(** * Approval logs *)

Lemma substring_all (s : string) : String.substring 0 (String.length s) s = s.
Proof. induction s as [|c s IH]; [done|]. cbn. by rewrite IH. Qed.

Lemma slice_from_app (p s : string) : slice_from (String.length p) (p +:+ s) = s.
Proof.
  unfold slice_from. induction p as [|c p IH].
  - cbn [String.length]. rewrite Nat.sub_0_r. apply substring_all.
  - change (String c p +:+ s) with (String c (p +:+ s)). exact IH.
Qed.

Lemma length_app_string (p s : string) :
  String.length (p +:+ s) = (String.length p + String.length s)%nat.
Proof.
  induction p as [|c p IH]; [done|].
  change (String c p +:+ s) with (String c (p +:+ s)). cbn [String.length]. by rewrite IH.
Qed.

Lemma length_string_repeat n c : String.length (string_repeat n c) = n.
Proof. induction n as [|n IH]; cbn; [done | by rewrite IH]. Qed.

Lemma app_string_assoc (a b c : string) : (a +:+ b) +:+ c = a +:+ (b +:+ c).
Proof.
  induction a as [|x a IH]; [done|].
  change ((String x a +:+ b) +:+ c) with (String x ((a +:+ b) +:+ c)). by rewrite IH.
Qed.

(** X1: the topic written for an address and the address read from a topic
    are inverse to each other: for an address of [0x] and 40 characters,
    the topic has 66 characters and [remove_approves] reads the address
    back from it. *)
Theorem address_topic_round_trip (body : string) (token : Address) (t0 t1 : string)
    (rest : list string)
    (Hbody : String.length body = 40%nat) :
  String.length (address_topic ("0x" +:+ body)) = 66%nat /\
  spender_of_log (mkLog token (t0 :: t1 :: address_topic ("0x" +:+ body) :: rest))
  = Ok ("0x" +:+ body).
Proof.
  assert (E : address_topic ("0x" +:+ body)
              = ("0x" +:+ string_repeat 24 char_0) +:+ body).
  { unfold address_topic, rjust.
    change 2%nat with (String.length "0x"). rewrite slice_from_app.
    by rewrite Hbody, app_string_assoc. }
  split.
  - by rewrite E, length_app_string, Hbody.
  - unfold spender_of_log. cbn [log_topics lookup list_lookup].
    rewrite E. do 2 f_equal.
    exact (slice_from_app ("0x" +:+ string_repeat 24 char_0) body).
Qed.

Lemma address_topic_round_trip_witness :
  spender_of_log
    (mkLog "0xTokenA"
       ["0xddf2"; "0x0a11ce";
        address_topic "0xaaaaaaaaaaaaaaaaaaaaaaaaaaaaaaaaaaaaaaaa"])
  = Ok "0xaaaaaaaaaaaaaaaaaaaaaaaaaaaaaaaaaaaaaaaa".
Proof.
  exact (proj2 (address_topic_round_trip "aaaaaaaaaaaaaaaaaaaaaaaaaaaaaaaaaaaaaaaa"
                  "0xTokenA" "0xddf2" "0x0a11ce" [] eq_refl)).
Defined.

Lemma collect_approved_Ok logs acc approved :
  collect_approved logs acc = Ok approved ->
  forall p, p ∈ approved <->
            p ∈ acc \/ exists log, log ∈ logs /\ pair_of_log log = Ok p.
Proof.
  revert acc. induction logs as [|log logs IH]; intros acc H p.
  - cbn in H. simplify_eq. split; [by left|]. intros [?|(log & Hl & _)]; [done|].
    by apply elem_of_nil in Hl.
  - cbn [collect_approved] in H. unfold pair_of_log.
    destruct (spender_of_log log) as [spender|e] eqn:Hs; [|done].
    rewrite (IH _ H p). split.
    + intros [Hp|(l & Hl & Hpl)].
      * apply elem_of_union in Hp as [Hp|Hp]; [|by left].
        apply elem_of_singleton in Hp as ->. right. exists log.
        split; [left|]. by rewrite Hs.
      * right. exists l. split; [by right|done].
    + intros [Hp|(l & Hl & Hpl)].
      * left. set_solver.
      * apply elem_of_cons in Hl as [->|Hl].
        -- rewrite Hs in Hpl. simplify_eq. left. set_solver.
        -- right. by exists l.
Qed.

Lemma collect_approved_size logs acc approved :
  collect_approved logs acc = Ok approved ->
  (size approved <= length logs + size acc)%nat.
Proof.
  revert acc. induction logs as [|log logs IH]; intros acc H.
  - cbn in H. by simplify_eq.
  - cbn [collect_approved] in H.
    destruct (spender_of_log log) as [spender|e]; [|done].
    apply IH in H. etrans; [exact H|].
    pose proof (size_union_alt {[(log_address log, spender)]} acc) as Hu.
    assert (size (acc ∖ {[(log_address log, spender)]}) <= size acc)%nat
      by (apply subseteq_size; set_solver).
    rewrite Hu, size_singleton. cbn [length]. lia.
Qed.

Lemma collect_approved_total logs acc :
  Forall (fun log => (2 < length (log_topics log))%nat) logs ->
  exists approved, collect_approved logs acc = Ok approved.
Proof.
  intros HF. revert acc. induction HF as [|log logs Hlog _ IH]; intros acc; [by eexists|].
  cbn [collect_approved]. unfold spender_of_log.
  destruct (lookup_lt_is_Some_2 (log_topics log) 2 Hlog) as [topic ->]. apply IH.
Qed.

(** X2: when every log has its three topics, the first loop of
    [remove_approves] returns a set that holds exactly the pairs (token
    contract, spender) of the logs, each of them once however often it was
    logged: the pairs to revoke are distinct and not more than the logs. *)
Theorem approved_pairs_of_logs (logs : list ApprovalLog)
    (Htopics : Forall (fun log => (2 < length (log_topics log))%nat) logs) :
  exists approved,
    collect_approved logs ∅ = Ok approved /\
    (forall p, p ∈ approved <-> exists log, log ∈ logs /\ pair_of_log log = Ok p) /\
    NoDup (elements approved) /\
    (length (elements approved) <= length logs)%nat.
Proof.
  destruct (collect_approved_total logs ∅ Htopics) as [approved H].
  exists approved. split; [done|]. split; [|split].
  - intros p. rewrite (collect_approved_Ok _ _ _ H p). set_solver.
  - apply NoDup_elements.
  - apply collect_approved_size in H. rewrite size_empty in H.
    unfold size, set_size in H. cbn in H. lia.
Qed.

Lemma approved_pairs_of_logs_witness :
  exists approved,
    collect_approved sample_logs ∅ = Ok approved /\
    length sample_logs = 3%nat /\ (length (elements approved) <= 3)%nat /\
    token_A_pair ∈ approved.
Proof.
  destruct (approved_pairs_of_logs sample_logs) as (approved & H & Hin & _ & Hlen).
  { repeat constructor. }
  exists approved. split; [done|]. split; [done|]. split; [done|].
  apply Hin. eexists. split; [left|]. reflexivity.
Defined.

Lemma collect_approved_short_log (before : list ApprovalLog) (log : ApprovalLog)
    (after : list ApprovalLog) (acc : gset (Address * Address)) :
  Forall (fun log => (2 < length (log_topics log))%nat) before ->
  (length (log_topics log) <= 2)%nat ->
  collect_approved (before ++ log :: after) acc
  = Raise (mkExc IndexError "list index out of range").
Proof.
  intros Hbefore Hshort.
  revert acc. induction Hbefore as [|l before Hl _ IH]; intros acc.
  - cbn [app collect_approved]. unfold spender_of_log.
    by rewrite (lookup_ge_None_2 (log_topics log) 2) by lia.
  - cbn [app collect_approved]. unfold spender_of_log.
    destruct (lookup_lt_is_Some_2 (log_topics l) 2 Hl) as [topic ->]. apply IH.
Qed.

(** X3: a log with fewer than three topics stops [remove_approves] with an
    [IndexError] before anything is revoked: the pairs found in the other
    logs are dropped; the one request to the block explorer has been made,
    the node is not contacted and nothing is sent. *)
Theorem short_log_stops_remove_approves w self s (before : list ApprovalLog)
    (log : ApprovalLog) (after : list ApprovalLog)
    (Hkey : ETHERSCAN_API_KEY w ≠ "")
    (Hlogs : http_getLogs w (tick s) (chain_id (chains s !!! chain self))
               (address (account self)) = Some (Some (before ++ log :: after)))
    (Hbefore : Forall (fun log => (2 < length (log_topics log))%nat) before)
    (Hshort : (length (log_topics log) <= 2)%nat) :
  exists s', remove_approves w self s
             = (Raise (mkExc IndexError "list index out of range"), s') /\
             count is_rpc (trace s') = count is_rpc (trace s) /\
             sent (trace s') = sent (trace s) /\
             count is_http (trace s') = S (count is_http (trace s)).
Proof.
  eexists. split.
  - unfold remove_approves. destruct (decide (ETHERSCAN_API_KEY w = "")); [done|].
    assert (Hrun : _get_approval_logs w self s
                   = (Ok (before ++ log :: after),
                      push (EvHttp_getLogs (chain_id (chains s !!! chain self))
                              (address (account self))) s)).
    { unfold _get_approval_logs, bind, get_chain, get_tick, emit, answer.
      by rewrite Hlogs. }
    rewrite (bind_Ok _ _ _ _ _ Hrun).
    rewrite (collect_approved_short_log before log after ∅ Hbefore Hshort).
    destruct (before ++ log :: after) eqn:E; [by destruct before|].
    reflexivity.
  - cbn [push trace]. by rewrite !count_cons, sent_cons.
Qed.

Lemma short_log_stops_remove_approves_witness :
  exists s', remove_approves world_with_short_log sample_self (sample_state None)
             = (Raise (mkExc IndexError "list index out of range"), s') /\
             sent (trace s') = [].
Proof.
  destruct (short_log_stops_remove_approves world_with_short_log sample_self
              (sample_state None) sample_logs
              (mkLog "0xTokenC" ["0xddf2"; "0x0a11ce"]) [])
    as (s' & H & _ & Hs & _).
  - done.
  - reflexivity.
  - repeat constructor.
  - cbn. lia.
  - exists s'. split; [exact H | exact Hs].
Defined.

(** * Frames of the remaining methods *)

Ltac frame_more :=
  repeat first
    [ frame_step
    | progress unfold approve, _sign_and_send, send_token, revoke_one, get_gas_price,
        _get_approval_logs, is_eip_1559, remove_approves ].

Ltac use_frame_more H R F :=
  lazymatch type of H with
  | ?m ?s = (?r, ?s') =>
      let HR := fresh in
      assert (HR : respects R m) by frame_more;
      pose proof (HR s r s' H) as F; clear HR
  end.

Lemma count_le_grows k s s' (P : Event -> Prop) :
  grows P s s' -> (count k (trace s) <= count k (trace s'))%nat.
Proof. intros (evs & -> & _). rewrite count_app. lia. Qed.

(** * Bulk revocation: what it asks and what it sends *)

Section RevokeMore.

Context (w : World) (self : Onchain).

Lemma _get_token_params_requests a s r s' :
  _get_token_params w self a s = (r, s') ->
  (count is_token_params (trace s') <= count is_token_params (trace s) + 2)%nat.
Proof.
  unfold _get_token_params. intros H. run_prims. case_decide.
  - run_prims. lia.
  - run_bind H.
    + apply rpc_run in Hrun as [-> _]. run_bind H.
      * apply rpc_run in Hrun as [-> _]. run_prims. cbn [push trace].
        rewrite !count_cons. cbn [is_token_params]. lia.
      * apply rpc_run in H as [-> _]. cbn [push trace].
        rewrite !count_cons. cbn [is_token_params]. lia.
    + apply rpc_run in H as [-> _]. cbn [push trace].
      rewrite !count_cons. cbn [is_token_params]. lia.
Qed.

Lemma approve_no_token_params token amount spender s r s' :
  approve w self (TokObj token) amount spender s = (r, s') ->
  count is_token_params (trace s') = count is_token_params (trace s).
Proof.
  intros H. use_frame_more H (grows (fun e => is_token_params e = false)) F.
  by apply grows_count.
Qed.

Lemma revoke_one_requests item cache s r s' :
  revoke_one w self item cache s = (r, s') ->
  (count is_token_params (trace s')
   <= count is_token_params (trace s) + (if cache !! item.1 is Some _ then 0 else 2))%nat /\
  (forall cache', r = Ok cache' -> dom cache' = {[item.1]} ∪ dom cache).
Proof.
  unfold revoke_one. intros H. destruct (cache !! item.1) as [token|] eqn:Hc.
  - rewrite bind_ret in H. cbn [fst snd] in H. run_bind H.
    + apply approve_no_token_params in Hrun. run_prims. split; [lia|].
      intros cache' E. simplify_eq.
      apply (elem_of_dom_2 (D := gset Address)) in Hc. set_solver.
    + apply approve_no_token_params in H. split; [lia|done].
  - run_bind H.
    + run_bind Hrun.
      * apply _get_token_params_requests in Hrun0. run_prims. cbn [fst snd] in H.
        run_bind H.
        -- apply approve_no_token_params in Hrun. run_prims. split; [lia|].
           intros cache' E. simplify_eq. by rewrite dom_insert_L.
        -- apply approve_no_token_params in H. split; [lia|done].
    + run_bind H; [run_prims|].
      apply _get_token_params_requests in H. split; [lia|done].
Qed.

Lemma uncached_tokens_cons item items cache :
  uncached_tokens (item :: items) cache
  = ((if cache !! item.1 is Some _ then 0 else 1)
     + size (list_to_set (items.*1) ∖ ({[item.1]} ∪ dom cache) : gset Address))%nat.
Proof.
  unfold uncached_tokens. cbn [fmap list_fmap list_to_set].
  destruct (cache !! item.1) as [token|] eqn:Hc.
  - apply (elem_of_dom_2 (D := gset Address)) in Hc. cbn. f_equal. set_solver.
  - apply (not_elem_of_dom (D := gset Address)) in Hc.
    assert (E : (({[item.1]} ∪ list_to_set items.*1) ∖ dom cache : gset Address)
      = ({[item.1]} ∪ (list_to_set items.*1 ∖ ({[item.1]} ∪ dom cache)))).
    { apply set_eq. intros x.
      rewrite !elem_of_difference, !elem_of_union, !elem_of_difference, !elem_of_union,
        !elem_of_singleton.
      destruct (decide (x = item.1)) as [->|]; tauto. }
    rewrite E, size_union by set_solver. by rewrite size_singleton.
Qed.

(** X4: during one bulk revocation, the decimals and the symbol of a token
    are asked for at most once per token address that is not in the cache
    yet, however many spenders the token has: at most two such requests
    per distinct token address. *)
Theorem token_params_asked_once items cache s r s'
    (Hrun : revoke_each w self items cache s = (r, s')) :
  (count is_token_params (trace s')
   <= count is_token_params (trace s) + 2 * uncached_tokens items cache)%nat.
Proof.
  revert cache s Hrun. induction items as [|item items IH]; intros cache s Hrun.
  - cbn in Hrun. run_prims. lia.
  - cbn [revoke_each] in Hrun. rewrite uncached_tokens_cons.
    run_bind Hrun.
    + apply revoke_one_requests in Hrun0 as [Hc Hdom].
      apply IH in Hrun. unfold uncached_tokens in Hrun.
      rewrite (Hdom _ eq_refl) in Hrun.
      destruct (cache !! item.1); lia.
    + apply revoke_one_requests in Hrun as [Hc _].
      destruct (cache !! item.1); lia.
Qed.

Lemma revoke_each_sends items cache s r s' :
  revoke_each w self items cache s = (r, s') ->
  (length (sent (trace s')) <= length items + length (sent (trace s)))%nat.
Proof.
  revert cache s. induction items as [|item items IH]; intros cache s Hrun.
  - cbn in Hrun. run_prims. lia.
  - cbn [revoke_each] in Hrun. run_bind Hrun.
    + apply revoke_one_at_most_one in Hrun0. apply IH in Hrun. cbn [length]. lia.
    + apply revoke_one_at_most_one in Hrun. cbn [length]. lia.
Qed.

(** X5: [remove_approves] sends at most one transaction per distinct pair
    of the logs, hence never more transactions than the block explorer
    returned logs; without logs it sends none. *)
Theorem remove_approves_sends_at_most_the_logs s r s'
    (Hrun : remove_approves w self s = (r, s')) :
  (length (sent (trace s'))
   <= length (sent (trace s)) + length (logs_answered w self s))%nat.
Proof.
  unfold logs_answered. unfold remove_approves in Hrun.
  case_decide; [run_prims; cbn [push trace]; rewrite sent_cons; lia|].
  unfold _get_approval_logs, bind at 1 2 3 4 5, get_chain, get_tick, emit, answer in Hrun.
  cbn [push trace tick chains] in Hrun.
  destruct (http_getLogs w _ _ _) as [response|]; cbn in Hrun.
  - change (match response with Some logs => logs | None => [] end)
      with (default [] response).
    destruct (default [] response) as [|log logs] eqn:Hlogs.
    + run_prims. cbn [push trace]. rewrite !sent_cons. lia.
    + destruct (collect_approved (log :: logs) ∅) as [approved|e] eqn:Hset.
      * rewrite bind_lift_Ok in Hrun. apply revoke_each_sends in Hrun.
        cbn [push trace] in Hrun. rewrite sent_cons in Hrun.
        apply collect_approved_size in Hset. rewrite size_empty in Hset.
        unfold size, set_size, compose in Hset. cbn [length] in *. lia.
      * unfold bind, lift in Hrun. simplify_eq. cbn [push trace].
        rewrite sent_cons. lia.
  - simplify_eq. cbn [push trace]. rewrite sent_cons. cbn. lia.
Qed.

(** X6: without an API key [remove_approves] returns at once, having sent
    no request of any kind; when the block explorer has no logs (an empty
    or a missing result) it returns after that one request.  In both cases
    the node is not contacted and nothing is revoked. *)
Theorem remove_approves_nothing_to_do s
    (Hskip : ETHERSCAN_API_KEY w = "" \/
             exists response,
               http_getLogs w (tick s) (chain_id (chains s !!! chain self))
                 (address (account self)) = Some response /\
               default [] response = []) :
  exists s', remove_approves w self s = (Ok tt, s') /\
             count is_rpc (trace s') = count is_rpc (trace s) /\
             sent (trace s') = sent (trace s) /\
             (count is_http (trace s')
              = count is_http (trace s)
                + (if decide (ETHERSCAN_API_KEY w = "") then 0 else 1))%nat.
Proof.
  unfold remove_approves. destruct (decide (ETHERSCAN_API_KEY w = "")) as [Hk|Hk].
  - eexists. split; [reflexivity|]. cbn [push trace]. rewrite !count_cons. cbn. done.
  - destruct Hskip as [?|(response & Hans & Hempty)]; [done|].
    assert (Hlogs : _get_approval_logs w self s
                    = (Ok (default [] response),
                       push (EvHttp_getLogs (chain_id (chains s !!! chain self))
                               (address (account self))) s)).
    { unfold _get_approval_logs, bind, get_chain, get_tick, emit, answer.
      by rewrite Hans. }
    rewrite (bind_Ok _ _ _ _ _ Hlogs), Hempty.
    eexists. split; [reflexivity|]. cbn [push trace]. rewrite !count_cons. cbn.
    split; [done|]. split; [done|lia].
Qed.

End RevokeMore.

Lemma token_params_asked_once_witness :
  let w := sample_world 3 100 300 50 (always 3) in
  let items := [("0xTokenA", "0xS1"); ("0xTokenA", "0xS2"); ("0xTokenA", "0xS3")] in
  let run := revoke_each w sample_self items ∅ (sample_state (Some false)) in
  run.1 = Ok tt /\ length (sent (trace run.2)) = 3%nat /\
  (count is_token_params (trace run.2) <= 2)%nat.
Proof.
  intros w items run. split; [vm_compute; reflexivity|].
  split; [vm_compute; reflexivity|].
  exact (token_params_asked_once w sample_self items ∅ (sample_state (Some false))
           run.1 run.2 (surjective_pairing run)).
Defined.

Lemma remove_approves_sends_at_most_the_logs_witness :
  let w := sample_world 3 100 300 50 (always 3) in
  let run := remove_approves w sample_self (sample_state (Some false)) in
  (length (sent (trace run.2)) <= 3)%nat.
Proof.
  intros w run.
  exact (remove_approves_sends_at_most_the_logs w sample_self (sample_state (Some false))
           run.1 run.2 (surjective_pairing run)).
Defined.

Lemma remove_approves_nothing_to_do_witness :
  exists s', remove_approves world_without_logs sample_self (sample_state None)
             = (Ok tt, s') /\
             sent (trace s') = [].
Proof.
  destruct (remove_approves_nothing_to_do world_without_logs sample_self
              (sample_state None)) as (s' & H & _ & Hs & _).
  { right. exists None. split; reflexivity. }
  exists s'. split; [exact H | exact Hs].
Defined.

(** * Waiting for the gas price; a browser that does not close *)

Lemma poll_above_Some w self limit t b :
  poll_above w self limit t = Some b ->
  exists price f, rpc_gas_price w (chain self) t = Some price /\
                  int_truediv price (10 ^ 9) = Ok f /\ gt_int f limit = b.
Proof.
  unfold poll_above. destruct (rpc_gas_price w (chain self) t) as [price|]; [|done].
  destruct (int_truediv price (10 ^ 9)) as [f|] eqn:Hf; [|done].
  intros [= <-]. by exists price, f.
Qed.

Lemma gas_price_wait_loop_polls w self limit n : forall fuel s,
  (forall k, (k < n)%nat -> poll_above w self limit (tick s + 2 * k) = Some true) ->
  poll_above w self limit (tick s + 2 * n) = Some false ->
  (n < fuel)%nat ->
  exists s', gas_price_wait_loop w fuel self limit s = (Ok true, s') /\
             count is_gas_price (trace s') = (count is_gas_price (trace s) + n + 1)%nat /\
             count is_sleep (trace s') = (count is_sleep (trace s) + n)%nat /\
             sent (trace s') = sent (trace s).
Proof.
  induction n as [|n IH]; intros fuel s Hhigh Hlow Hfuel;
    (destruct fuel as [|fuel]; [lia|]).
  - rewrite Nat.add_0_r in Hlow.
    apply poll_above_Some in Hlow as (price & f & Hp & Hf & Hle).
    rewrite (gas_price_wait_loop_done _ _ _ _ _ _ _ Hp Hf Hle).
    eexists. split; [reflexivity|]. cbn [push trace].
    rewrite !count_cons, sent_cons. cbn [is_gas_price is_sleep]. repeat split; lia.
  - pose proof (Hhigh 0%nat ltac:(lia)) as H0. rewrite Nat.add_0_r in H0.
    apply poll_above_Some in H0 as (price & f & Hp & Hf & Hgt).
    rewrite (gas_price_wait_loop_again _ _ _ _ _ _ _ Hp Hf Hgt).
    set (s2 := push EvSleep (push (EvRpc (chain self) Rpc_gas_price) s)).
    assert (Ht : tick s2 = S (S (tick s))) by done.
    destruct (IH fuel s2) as (s' & Hrun & Hg & Hs & Hsent).
    + intros k Hk. rewrite Ht.
      replace (S (S (tick s)) + 2 * k)%nat with (tick s + 2 * S k)%nat by lia.
      apply Hhigh. lia.
    + rewrite Ht.
      by replace (S (S (tick s)) + 2 * n)%nat with (tick s + 2 * S n)%nat by lia.
    + lia.
    + exists s'. split; [exact Hrun|]. subst s2. cbn [push trace] in Hg, Hs, Hsent.
      rewrite !count_cons in Hg, Hs. rewrite !sent_cons in Hsent.
      cbn [is_gas_price is_sleep] in Hg, Hs. repeat split; [lia | lia | done].
Qed.

(** X7: [gas_price_wait] polls the gas price until a poll finds it at or
    below the limit: when the first [n] polls are above the limit and the
    next one is not, it returns after [n + 1] requests and [n] sleeps, and
    sends nothing.  The limit is the argument, or [config.gas_price_limit]
    when the argument is missing or 0. *)
Theorem gas_price_wait_ends_at_first_low_poll w self (gas_limit : option Z) (limit : Z)
    (n fuel : nat) s
    (Hlimit : (gas_limit = Some limit /\ limit <> 0) \/
              ((gas_limit = None \/ gas_limit = Some 0) /\ limit = gas_price_limit w))
    (Hhigh : forall k, (k < n)%nat ->
               poll_above w self limit (tick s + 2 * k) = Some true)
    (Hlow : poll_above w self limit (tick s + 2 * n) = Some false)
    (Hfuel : (n < fuel)%nat) :
  exists s', gas_price_wait w fuel self gas_limit s = (Ok true, s') /\
             count is_gas_price (trace s') = (count is_gas_price (trace s) + n + 1)%nat /\
             count is_sleep (trace s') = (count is_sleep (trace s) + n)%nat /\
             sent (trace s') = sent (trace s).
Proof.
  assert (E : gas_price_wait w fuel self gas_limit s
              = gas_price_wait_loop w fuel self limit s).
  { unfold gas_price_wait.
    destruct Hlimit as [[-> Hne]|[[->| ->] ->]]; try done.
    by destruct limit. }
  rewrite E. by apply gas_price_wait_loop_polls.
Qed.

(** Prices of 50, 40 and 20 gwei against a limit of 30: two sleeps, three
    requests. *)
Lemma gas_price_wait_ends_at_first_low_poll_witness :
  let prices := fun t : nat =>
    Some (if decide (t = 0%nat) then 50 * 10 ^ 9
          else if decide (t = 2%nat) then 40 * 10 ^ 9 else 20 * 10 ^ 9) in
  exists s', gas_price_wait (world_with_gas_price prices 30) 10 sample_self None
               (sample_state None) = (Ok true, s') /\
             count is_sleep (trace s') = 2%nat.
Proof.
  intros prices.
  destruct (gas_price_wait_ends_at_first_low_poll (world_with_gas_price prices 30)
              sample_self None 30 2 10 (sample_state None))
    as (s' & Hrun & _ & Hs & _).
  - right. split; [by left | reflexivity].
  - intros k Hk. destruct k as [|[|k]]; [vm_compute; reflexivity .. | lia].
  - vm_compute; reflexivity.
  - lia.
  - exists s'. split; [exact Hrun | exact Hs].
Defined.

(** X8: when the browser cannot be closed, [__exit__] raises before it
    looks at the exception of the body: the [with] statement ends with the
    error of [close_browser], whatever the body did, the exception of the
    body is lost, and no line about the end of the account is logged. *)
Theorem Bot_exit_close_browser_fails w (self : Account) {A} (body : Account -> M A)
    s r s1
    (Hbody : body self s = (r, s1))
    (Hclose : close_browser w (tick s1) = false) :
  exists e, Bot.with_Bot w self body s = (Raise e, push EvCloseBrowser s1) /\
            forall exc, Bot.__exit__ w self exc s1 = (Raise e, push EvCloseBrowser s1).
Proof.
  exists (mkExc (OtherException "Exception" false) "close_browser failed").
  assert (Hexit : forall exc,
            Bot.__exit__ w self exc s1
            = (Raise (mkExc (OtherException "Exception" false) "close_browser failed"),
               push EvCloseBrowser s1)).
  { intros exc. unfold Bot.__exit__, bind, get_tick, emit. by rewrite Hclose. }
  split; [|exact Hexit].
  unfold Bot.with_Bot, Bot.__enter__. rewrite bind_ret, Hbody.
  destruct r as [a|e]; by rewrite Hexit.
Qed.

Lemma Bot_exit_close_browser_fails_witness :
  exists e, Bot.with_Bot world_with_stuck_browser sample_account
              (fun _ => raise ValueError "boom" : M unit) (sample_state None)
            = (Raise e, push EvCloseBrowser (sample_state None)) /\
            exc_type e <> ValueError.
Proof.
  destruct (Bot_exit_close_browser_fails world_with_stuck_browser sample_account
              (fun _ => raise ValueError "boom" : M unit) (sample_state None)
              (Raise (mkExc ValueError "boom")) (sample_state None))
    as (e & Hrun & Hexit); [reflexivity | reflexivity |].
  exists e. split; [exact Hrun|].
  specialize (Hexit None). vm_compute in Hexit. by simplify_eq.
Defined.

(** * The shared native token *)

(** X9: [Tokens.NATIVE_TOKEN] is one object shared by all callers, and a
    balance query without a token writes the chain of the caller into it.
    Such a query therefore never fails with the cross-chain error; it
    leaves the shared token tagged with its own chain, and from then on
    the same object, passed as a token to a connection to any other chain,
    is refused there before any request is sent. *)
Theorem native_token_is_retagged w self addr s r s'
    (Hrun : get_balance w self TokNone addr s = (r, s')) :
  NATIVE_TOKEN s'
  = mkToken (Token_symbol (NATIVE_TOKEN s)) (Token_address (NATIVE_TOKEN s)) (chain self)
      (Token_decimals (NATIVE_TOKEN s)) (type_token (NATIVE_TOKEN s)) /\
  r <> Raise CrossChainTokenMismatch /\
  forall c' addr', c' <> chain self ->
    exists s'', get_balance w (change_chain self c') (TokObj (NATIVE_TOKEN s')) addr' s'
                = (Raise CrossChainTokenMismatch, s'') /\
                count is_network (trace s'') = count is_network (trace s').
Proof.
  assert (Hnative : NATIVE_TOKEN s'
            = mkToken (Token_symbol (NATIVE_TOKEN s)) (Token_address (NATIVE_TOKEN s))
                (chain self) (Token_decimals (NATIVE_TOKEN s)) (type_token (NATIVE_TOKEN s))
            /\ r <> Raise CrossChainTokenMismatch).
  { unfold get_balance in Hrun. run_bind Hrun.
    - run_prims. cbn [Token_chain] in Hrun.
      destruct (decide (chain self ≠ chain self)); [done|].
      cbn [type_token] in Hrun.
      match type of Hrun with context [type_token ?n] => destruct (type_token n) end.
      + run_bind Hrun.
        * apply rpc_run in Hrun0 as [-> _]. run_prims. done.
        * apply rpc_run in Hrun as [-> Hr].
          split; [done|]. destruct (rpc_get_balance _ _ _ _); by simplify_eq.
      + run_bind Hrun.
        * apply rpc_run in Hrun0 as [-> _]. run_prims. done.
        * apply rpc_run in Hrun as [-> Hr].
          split; [done|]. destruct (rpc_balanceOf _ _ _ _ _); by simplify_eq.
    - run_prims. }
  destruct Hnative as [Hnative Hr]. split; [done|]. split; [done|].
  intros c' addr' Hne.
  apply (get_balance_cross_chain w (change_chain self c')).
  rewrite Hnative. cbn [Token_chain change_chain chain]. congruence.
Qed.

Lemma native_token_is_retagged_witness :
  let w := sample_world 3 100 300 50 (always 3) in
  let run := get_balance w sample_self TokNone None (sample_state None) in
  run.1 = Ok (mkAmount 100 18) /\
  (get_balance w (change_chain sample_self 1) (TokObj (NATIVE_TOKEN run.2)) None run.2).1
  = Raise CrossChainTokenMismatch.
Proof.
  intros w run. split; [vm_compute; reflexivity|].
  destruct (native_token_is_retagged w sample_self None (sample_state None) run.1 run.2
              (surjective_pairing run)) as (_ & _ & H).
  destruct (H 1%nat None) as (s'' & Hrun & _); [vm_compute; lia|].
  by rewrite Hrun.
Defined.

(** * What the methods leave alone *)

Section SettingsKept.

Context (w : World) (self : Onchain).

Lemma chain_settings_kept_refl ch : chain_settings_kept ch ch.
Proof. by repeat split. Qed.

Lemma chain_settings_kept_trans ch1 ch2 ch3 :
  chain_settings_kept ch1 ch2 -> chain_settings_kept ch2 ch3 -> chain_settings_kept ch1 ch3.
Proof.
  intros (? & ? & ? & ? & Hf1) (? & ? & ? & ? & Hf2).
  repeat split; try congruence. intros b Hb. by apply Hf2, Hf1.
Qed.

#[global] Instance settings_kept_preorder : PreOrder (settings_kept self).
Proof.
  split.
  - intros s. repeat split; auto.
  - intros s1 s2 s3 (Ho1 & Hc1 & Ha1 & Hd1 & Ht1 & Hch1 & Hs1)
      (Ho2 & Hc2 & Ha2 & Hd2 & Ht2 & Hch2 & Hs2).
    split; [|split; [|split; [|split; [|split; [|split]]]]].
    + intros c Hc. by rewrite Ho2, Ho1.
    + by eapply chain_settings_kept_trans.
    + congruence.
    + congruence.
    + congruence.
    + destruct Hch2 as [->| ->]; auto.
    + destruct Hc1 as (_ & _ & Hn & _).
      destruct Hs2 as [->| ->]; [auto | right; congruence].
Qed.

Lemma settings_kept_emit e : respects (settings_kept self) (emit e).
Proof. intros s r s' H. inversion H. repeat split; auto. Qed.

Lemma settings_kept_rpc {A} c call (ans : ChainRef -> nat -> option A) :
  respects (settings_kept self) (rpc c call ans).
Proof.
  unfold rpc. apply respects_bind; [apply _ | apply respects_get_tick; apply _ |].
  intros t. apply respects_bind; [apply _ | apply settings_kept_emit |].
  intros _. apply respects_answer; apply _.
Qed.

End SettingsKept.

Create HintDb kept discriminated.

(** The steps of a proof that a method keeps the settings. *)
Ltac kept_native :=
  let s := fresh "s" in
  let r := fresh "r" in
  let s' := fresh "s'" in
  let H := fresh "H" in
  intros s r s' H;
  cbv [bind get_NATIVE_TOKEN put_NATIVE_TOKEN get_chain ret] in H; simplify_eq;
  repeat split; cbn; auto.

Ltac kept_step :=
  lazymatch goal with
  | |- respects _ (bind get_NATIVE_TOKEN ?f) =>
      lazymatch f with
      | context [put_NATIVE_TOKEN] => kept_native
      | _ => apply respects_bind; frame_order; [ | intros ? ]
      end
  | |- respects _ (bind _ _) => apply respects_bind; frame_order; [ | intros ? ]
  | |- respects _ (ret _) => apply respects_ret; frame_order
  | |- respects _ (raise _ _) => apply respects_raise; frame_order
  | |- respects _ (lift _) => apply respects_lift; frame_order
  | |- respects _ (answer _ _ _) => apply respects_answer; frame_order
  | |- respects _ get_tick => apply respects_get_tick; frame_order
  | |- respects _ get_NATIVE_TOKEN => apply respects_get_NATIVE_TOKEN; frame_order
  | |- respects _ (get_chain _) => apply respects_get_chain; frame_order
  | |- respects _ (emit _) => apply settings_kept_emit
  | |- respects _ (rpc _ _ _) => apply settings_kept_rpc
  | |- respects _ (match ?x with _ => _ end) => destruct x
  | |- _ =>
      first [ solve [ eauto with kept ]
            | progress unfold random_multiplayer, logger, _multiply,
                _get_token_params, _estimate_gas, fetch_fee_history,
                _get_l1_fee, _prepare_tx, get_balance, native_fee_spend,
                warn_correction, _validate_native_transfer_value, _get_allowance,
                approve, _sign_and_send, send_token, revoke_one, get_gas_price,
                _get_approval_logs, is_eip_1559, remove_approves, gas_price_wait ]
  end.
Ltac kept := repeat kept_step.

Section MethodsKeep.

Context (w : World) (self : Onchain).

Lemma _get_fee_keeps tx : respects (settings_kept self) (_get_fee w self tx).
Proof.
  intros s r s' H. unfold _get_fee in H. rewrite bind_get_chain in H.
  destruct (is_eip1559 (chains s !!! chain self)) as [b|] eqn:Hflag.
  - rewrite bind_ret in H. revert H. generalize s r s'.
    change (respects (settings_kept self)
      (ch <- get_chain (chain self) ;;
       match is_eip1559 ch with
       | Some false =>
           gas_price <- rpc (chain self) Rpc_gas_price (rpc_gas_price w) ;;
           v <- _multiply w self gas_price fee_range ;;
           ret (<["gasPrice" := VInt v]> (default ∅ tx))
       | _ =>
           fee_history <- fetch_fee_history w self ;;
           base_fee <- lift (last_item (default [0] (baseFeePerGas fee_history))) ;;
           median_priority_fee <- lift (median_priority_fee fee_history) ;;
           priority_fee <- _multiply w self median_priority_fee fee_range ;;
           max_fee <- _multiply w self (base_fee + priority_fee) fee_range ;;
           ret (<["maxPriorityFeePerGas" := VInt priority_fee]>
                  (<["maxFeePerGas" := VInt max_fee]>
                     (<["type" := VStr "0x2"]> (default ∅ tx))))
       end)).
    kept.
  - match type of H with
    | bind _ ?f _ = _ =>
        assert (Hrest : forall a, respects (settings_kept self) (f a))
          by (intros a; kept)
    end.
    assert (Hcls : forall fh s1,
              fetch_fee_history w self s = (Ok fh, s1) ->
              settings_kept self s
                (mkState (trace s1)
                   (<[chain self :=
                        set_is_eip1559 (any (default [0] (baseFeePerGas fh)))
                          (chains s1 !!! chain self)]> (chains s1))
                   (NATIVE_TOKEN s1))).
    { intros fh s1 Hf. apply rpc_run in Hf as [-> _]. cbn [push trace chains NATIVE_TOKEN].
      split; [|split]; cbn [trace chains NATIVE_TOKEN].
      - intros c Hc. by rewrite lookup_insert_ne.
      - rewrite lookup_total_insert_eq. unfold chain_settings_kept.
        unfold set_is_eip1559. split; [|split; [|split; [|split]]]; cbn; auto.
        intros b Hb. congruence.
      - repeat split; auto. }
    run_bind H.
    + run_bind Hrun.
      apply Hcls in Hrun0. cbv [bind get_chain put_chain ret] in Hrun.
      pose proof (Hrest _ _ _ _ H) as Hk. clear H Hrest.
      injection Hrun as <- <-. by etrans.
    + run_bind H; [run_prims|].
      by apply (settings_kept_rpc self) in H.
Qed.

End MethodsKeep.

#[global] Hint Resolve _get_fee_keeps : kept.

Section PublicMethodsKeep.

Context (w : World) (self : Onchain).

Lemma approve_keeps token amount spender :
  respects (settings_kept self) (approve w self token amount spender).
Proof. kept. Qed.

Lemma revoke_each_keeps items : forall cache,
  respects (settings_kept self) (revoke_each w self items cache).
Proof.
  induction items as [|item items IH]; intros cache; cbn [revoke_each].
  - kept.
  - apply respects_bind; [apply _ | | intros c; apply IH].
    unfold revoke_one. kept.
Qed.

Lemma gas_price_wait_loop_keeps fuel limit :
  respects (settings_kept self) (gas_price_wait_loop w fuel self limit).
Proof.
  induction fuel as [|fuel IH]; cbn [gas_price_wait_loop]; [kept|].
  apply respects_bind; [apply _ | kept | intros p].
  destruct (num_gt_int p limit); [|kept].
  apply respects_bind; [apply _ | kept | intros _; apply IH].
Qed.

(** X10: no method changes the settings of a chain or of the native token:
    the Chain objects of other chains are untouched, the Chain object of
    the connection keeps its name, id, native symbol and multiplier, and a
    fee model that is known is never changed; of the shared native token
    only the chain and the symbol are written, with the chain of the
    connection and its native symbol. *)
Theorem methods_keep_settings :
  (forall token address_arg,
     respects (settings_kept self) (get_balance w self token address_arg)) /\
  (forall to_address amount token,
     respects (settings_kept self) (send_token w self to_address amount token)) /\
  (forall token amount spender,
     respects (settings_kept self) (approve w self token amount spender)) /\
  respects (settings_kept self) (remove_approves w self) /\
  (forall gwei, respects (settings_kept self) (get_gas_price w self gwei)) /\
  (forall fuel gas_limit,
     respects (settings_kept self) (gas_price_wait w fuel self gas_limit)) /\
  respects (settings_kept self) (is_eip_1559 w self).
Proof.
  split; [|split; [|split; [|split; [|split; [|split]]]]].
  - intros token address_arg. kept.
  - intros to_address amount token. kept.
  - apply approve_keeps.
  - unfold remove_approves. case_decide; [kept|].
    apply respects_bind; [apply _ | kept | intros logs].
    destruct logs as [|log logs]; [kept|].
    apply respects_bind; [apply _ | kept | intros approved].
    apply revoke_each_keeps.
  - intros gwei. kept.
  - intros fuel gas_limit. unfold gas_price_wait. apply gas_price_wait_loop_keeps.
  - kept.
Qed.

End PublicMethodsKeep.

(** * The transactions that are submitted *)

Section FeeFields.

Context (w : World) (self : Onchain).

(** The fee fields that [_get_fee] writes are those of the fee model that
    the chain has when it returns. *)
Lemma _get_fee_fields tx s tx' s' :
  _get_fee w self tx s = (Ok tx', s') ->
  exists eip, is_eip1559 (chains s' !!! chain self) = Some eip /\
    if eip
    then exists p m,
           tx' = <["maxPriorityFeePerGas" := VInt p]>
                   (<["maxFeePerGas" := VInt m]>
                      (<["type" := VStr "0x2"]> (default ∅ tx)))
    else exists v, tx' = <["gasPrice" := VInt v]> (default ∅ tx).
Proof.
  intros H. unfold _get_fee in H. rewrite bind_get_chain in H.
  assert (Htail : forall fh s1 eip,
            is_eip1559 (chains s1 !!! chain self) = Some eip ->
            (ch <- get_chain (chain self) ;;
             match is_eip1559 ch with
             | Some false =>
                 gas_price <- rpc (chain self) Rpc_gas_price (rpc_gas_price w) ;;
                 v <- _multiply w self gas_price fee_range ;;
                 ret (<["gasPrice" := VInt v]> (default ∅ tx))
             | _ =>
                 fee_history <-
                   match fh with
                   | Some fh => if FeeHistory_truthy fh then ret fh
                                else fetch_fee_history w self
                   | None => fetch_fee_history w self
                   end ;;
                 base_fee <- lift (last_item (default [0] (baseFeePerGas fee_history))) ;;
                 median_priority_fee <- lift (median_priority_fee fee_history) ;;
                 priority_fee <- _multiply w self median_priority_fee fee_range ;;
                 max_fee <- _multiply w self (base_fee + priority_fee) fee_range ;;
                 ret (<["maxPriorityFeePerGas" := VInt priority_fee]>
                        (<["maxFeePerGas" := VInt max_fee]>
                           (<["type" := VStr "0x2"]> (default ∅ tx))))
             end) s1 = (Ok tx', s') ->
            exists eip, is_eip1559 (chains s' !!! chain self) = Some eip /\
              if eip
              then exists p m,
                     tx' = <["maxPriorityFeePerGas" := VInt p]>
                             (<["maxFeePerGas" := VInt m]>
                                (<["type" := VStr "0x2"]> (default ∅ tx)))
              else exists v, tx' = <["gasPrice" := VInt v]> (default ∅ tx)).
  { clear H. intros fh s1 eip Hflag H. exists eip.
    use_frame H same_chains F. unfold same_chains in F. rewrite F. split; [done|].
    rewrite bind_get_chain, Hflag in H. destruct eip.
    - repeat (run_bind H). run_prims. eauto.
    - repeat (run_bind H). run_prims. eauto. }
  destruct (is_eip1559 (chains s !!! chain self)) as [b|] eqn:Hflag.
  - rewrite bind_ret in H. exact (Htail None s b Hflag H).
  - run_bind H. run_bind Hrun. apply rpc_run in Hrun0 as [-> _].
    cbv [bind get_chain put_chain ret] in Hrun.
    refine (Htail a s0 (any (default [0] (baseFeePerGas a0))) _ H).
    injection Hrun as <- <-. cbn [chains push]. by rewrite lookup_total_insert_eq.
Qed.

End FeeFields.

Section Prepared.

Context (w : World) (self : Onchain).

Lemma prepared_in_kept s s' tx :
  settings_kept self s s' -> prepared_in self s tx -> prepared_in self s' tx.
Proof.
  intros (_ & (_ & Hid & _ & _ & Hflag) & _) (eip & Hf & Hp).
  exists eip. split; [by apply Hflag|]. by rewrite Hid.
Qed.

(** Only the keys of the envelope matter. *)
Lemma tx_prepared_ext id eip (tx tx' : TxParams) :
  (forall k, k ≠ "value" -> k ≠ "data" -> k ≠ "to" -> k ≠ "gas" -> tx' !! k = tx !! k) ->
  tx_prepared self id eip tx -> tx_prepared self id eip tx'.
Proof.
  intros Hext. unfold tx_prepared, eip1559_fee_fields, legacy_fee_fields.
  by rewrite !Hext by done.
Qed.

Lemma prepared_in_ext s (tx tx' : TxParams) :
  (forall k, k ≠ "value" -> k ≠ "data" -> k ≠ "to" -> k ≠ "gas" -> tx' !! k = tx !! k) ->
  prepared_in self s tx -> prepared_in self s tx'.
Proof. intros Hext (eip & Hf & Hp). exists eip. split; [done|]. by eapply tx_prepared_ext. Qed.

Lemma _prepare_tx_prepared value to s tx s' :
  _prepare_tx w self value to s = (Ok tx, s') -> prepared_in self s' tx.
Proof.
  intros H. unfold _prepare_tx in H. run_bind H.
  apply _get_fee_fields in Hrun as (eip & Hflag & Hshape).
  run_bind H. apply rpc_run in Hrun as [-> _]. run_prims.
  exists eip. split; [done|]. cbn [push chains].
  eapply (tx_prepared_ext _ _
            (<["chainId" := VInt (chain_id (chains s0 !!! chain self))]>
               (<["nonce" := VInt a0]>
                  (<["from" := VStr (address (account self))]> a)))).
  - intros k ? ? ? ?.
    destruct value, (str_truthy to); by rewrite ?lookup_insert_ne by congruence.
  - unfold tx_prepared, eip1559_fee_fields, legacy_fee_fields.
    destruct eip; [destruct Hshape as (p & m & ->) | destruct Hshape as (v & ->)];
      cbn [default]; simplify_map_eq; eauto 10.
Qed.

Lemma _get_fee_prepared tx s tx' s' :
  prepared_in self s tx -> _get_fee w self (Some tx) s = (Ok tx', s') ->
  prepared_in self s' tx'.
Proof.
  intros Hp H. pose proof (_get_fee_keeps w self _ _ _ _ H) as K.
  apply (prepared_in_kept _ _ _ K) in Hp as (eip & Hflag & Hfrom & Hid & Hnonce & Hfee).
  apply _get_fee_fields in H as (eip' & Hflag' & Hshape).
  assert (eip' = eip) as -> by congruence.
  exists eip. split; [done|].
  unfold tx_prepared, eip1559_fee_fields, legacy_fee_fields in *. cbn [default] in Hshape.
  destruct eip; [destruct Hshape as (p & m & ->) | destruct Hshape as (v & ->)];
    simplify_map_eq; destruct_and?; eauto 10.
Qed.

Lemma _validate_native_transfer_value_keeps_keys tx s tx' s' k :
  _validate_native_transfer_value w self tx s = (Ok tx', s') ->
  k ≠ "value" -> k ≠ "data" -> tx' !! k = tx !! k.
Proof.
  intros H Hv Hd. unfold _validate_native_transfer_value in H.
  run_bind H. run_bind H. destruct a0 as [fee tx1]. cbn [fst snd] in H.
  apply (native_fee_spend_keeps _ _ _ _ _ _ _ k) in Hrun0; [|done].
  run_bind H. destruct (0 <=? _); [by run_prims|].
  repeat (run_bind H). destruct (0 <? _); run_prims.
  by rewrite lookup_insert_ne.
Qed.

Lemma _sign_and_send_sent tx s r s' :
  _sign_and_send w self tx s = (r, s') ->
  (sent (trace s') = sent (trace s) \/ sent (trace s') = tx :: sent (trace s)) /\
  (is_Ok r = true -> sent (trace s') = tx :: sent (trace s)).
Proof.
  intros H. split; [|by apply _sign_and_send_run in H as [? _]].
  unfold _sign_and_send in H. run_prims.
  destruct (sign_transaction w tx (private_key (account self))).
  - right. run_bind H.
    + apply rpc_run in Hrun as [-> _]. apply rpc_run in H as [-> _].
      cbn [push trace]. by rewrite !sent_cons.
    + apply rpc_run in H as [-> _]. cbn [push trace]. by rewrite !sent_cons.
  - left. run_prims. cbn [push trace]. by rewrite !sent_cons.
Qed.

End Prepared.

Section Submitted.

Context (w : World) (self : Onchain).

Ltac use_kept H F :=
  lazymatch type of H with
  | ?m ?s = (?r, ?s') =>
      let HR := fresh in
      assert (HR : respects (settings_kept self) m) by kept;
      pose proof (HR s r s' H) as F; clear HR
  end.

Lemma sent_well_formed_quiet s s' : grows not_submit s s' -> sent_well_formed self s s'.
Proof. intros F. left. by apply grows_sent. Qed.

Lemma sent_well_formed_before s0 s s' :
  grows not_submit s0 s -> settings_kept self s0 s ->
  sent_well_formed self s s' -> sent_well_formed self s0 s'.
Proof.
  intros F (_ & (_ & Hid & _) & _) [E|(tx & eip & E & Hflag & Hwf)]; apply grows_sent in F.
  - left. congruence.
  - right. exists tx, eip. rewrite <- F, <- Hid. done.
Qed.

Lemma sent_well_formed_after s s' s'' :
  sent_well_formed self s s' -> grows not_submit s' s'' -> settings_kept self s' s'' ->
  sent_well_formed self s s''.
Proof.
  intros [E|(tx & eip & E & Hflag & Hwf)] F (_ & (_ & _ & _ & _ & Hf) & _);
    apply grows_sent in F.
  - left. congruence.
  - right. exists tx, eip. rewrite F. split; [done|]. split; [by apply Hf | done].
Qed.

(** The last two steps of a submission, from prepared parameters. *)
Lemma submit_well_formed tx s tx1 s1 r s' :
  prepared_in self s tx ->
  _estimate_gas w self tx s = (Ok tx1, s1) ->
  _sign_and_send w self tx1 s1 = (r, s') ->
  sent_well_formed self s s' /\
  (is_Ok r = true -> length (sent (trace s')) = S (length (sent (trace s)))).
Proof.
  intros Hp Hest Hsend.
  use_frame Hest (grows not_submit) F1. apply grows_sent in F1.
  use_kept Hest K1. use_kept Hsend K2.
  apply _estimate_gas_run in Hest as [gas ->].
  apply _sign_and_send_sent in Hsend as [Hsent Hok].
  split; [|intros Ho; rewrite (Hok Ho), F1; done].
  destruct Hsent as [E|E]; [left; congruence|]. right.
  assert (K : settings_kept self s s') by (by etrans).
  destruct (prepared_in_kept self _ _ _ K Hp) as (eip & Hflag & _).
  destruct Hp as (eip0 & Hflag0 & Hp).
  assert (eip0 = eip) as ->.
  { destruct K as (_ & (_ & _ & _ & _ & Hf) & _). apply Hf in Hflag0. congruence. }
  exists (<["gas" := VInt gas]> tx), eip. rewrite E, F1. split; [done|]. split; [done|].
  split; [|by simplify_map_eq; eauto].
  eapply tx_prepared_ext; [|exact Hp]. intros k ? ? ? ?. by rewrite lookup_insert_ne.
Qed.

(** The parameters that [send_token] builds are prepared ones. *)
Lemma transfer_params_prepared (token : Token) (amount : Amount) to_address s p s' :
  match type_token token with
  | NATIVE =>
      tx_params <- _prepare_tx w self (Some amount) (Some to_address) ;;
      tx_params <- _validate_native_transfer_value w self tx_params ;;
      value <- lift (as_int (tx_params !! "value") TypeError "value is not an int") ;;
      ret (Amount_wei value None, tx_params)
  | ERC20 =>
      balance <- get_balance w self (TokObj token) None ;;
      let amount := if wei balance <? wei amount then balance else amount in
      tx_params <- _prepare_tx w self None None ;;
      ret (amount, build_transaction (Token_address token)
                     (TransferCall to_address (wei amount)) tx_params)
  end s = (Ok p, s') ->
  prepared_in self s' p.2.
Proof.
  intros H. destruct (type_token token).
  - run_bind H. apply _prepare_tx_prepared in Hrun.
    run_bind H. use_kept Hrun0 K. apply (prepared_in_kept _ _ _ _ K) in Hrun.
    run_bind H. run_prims. cbn [snd].
    match goal with Hl : lift _ _ = _ |- _ => unfold lift in Hl; injection Hl as _ <- end.
    eapply prepared_in_ext; [|exact Hrun]. intros k ? ? ? ?.
    by eapply _validate_native_transfer_value_keeps_keys.
  - run_bind H. run_bind H. apply _prepare_tx_prepared in Hrun0. run_prims. cbn [snd].
    eapply prepared_in_ext; [|exact Hrun0]. intros k ? ? ? ?.
    unfold build_transaction. by rewrite !lookup_insert_ne.
Qed.

Lemma sending_before {A} s0 s (r : Result A) s' :
  grows not_submit s0 s -> settings_kept self s0 s ->
  sent_well_formed self s s' /\
  (is_Ok r = true -> length (sent (trace s')) = S (length (sent (trace s)))) ->
  sent_well_formed self s0 s' /\
  (is_Ok r = true -> length (sent (trace s')) = S (length (sent (trace s0)))).
Proof.
  intros F K [Hwf Hok]. split; [by eapply sent_well_formed_before|].
  apply grows_sent in F. by rewrite <- F.
Qed.

Lemma sending_raise {A} s e s' :
  grows not_submit s s' ->
  sent_well_formed self s s' /\
  (is_Ok (Raise e : Result A) = true ->
   length (sent (trace s')) = S (length (sent (trace s)))).
Proof. intros F. split; [by apply sent_well_formed_quiet | done]. Qed.

(** One step that submits nothing: its run is split off, and the goal is
    left for the rest of the computation. *)
Ltac pass H :=
  let Hm := fresh "Hm" in
  let F := fresh "F" in
  let K := fresh "K" in
  let Hr := fresh "Hr" in
  apply bind_run in H as [(? & ? & Hm & H) | (? & H & Hr)];
  [ use_frame_more Hm (grows not_submit) F; use_kept Hm K;
    first [ eapply sent_well_formed_before | eapply sending_before ];
    [ exact F | exact K | ]; clear F K
  | first [ injection Hr as -> | subst ];
    use_frame_more H (grows not_submit) F;
    first [ by apply sent_well_formed_quiet | by apply sending_raise ] ].

(** X11: [send_token] hands at most one transaction to the node, and
    exactly one when it returns.  That transaction is complete: it carries
    the address of the account as sender, the id of the chain of the
    connection, a nonce and a gas limit, and its fee is given in the one
    way that fits the fee model of the chain: [gasPrice] alone on a legacy
    chain, type 0x2 with [maxFeePerGas] and [maxPriorityFeePerGas] and no
    [gasPrice] on an EIP-1559 chain. *)
Theorem send_token_submits_one_well_formed to_address amount token s r s'
    (Hrun : send_token w self to_address amount token s = (r, s')) :
  sent_well_formed self s s' /\
  (is_Ok r = true -> length (sent (trace s')) = S (length (sent (trace s)))).
Proof.
  unfold send_token in Hrun.
  pass Hrun. pass Hrun. pass Hrun. pass Hrun.
  apply transfer_params_prepared in Hm2.
  apply bind_run in Hrun as [(tx1 & s5 & Hest & Hrun) | (e & Hrun & ->)].
  - apply bind_run in Hrun as [(h & s6 & Hsend & Hrun) | (e & Hrun & ->)].
    + destruct (submit_well_formed _ _ _ _ _ _ Hm2 Hest Hsend) as [Hwf Hok].
      use_frame Hrun (grows not_submit) F. use_kept Hrun K. run_prims.
      split; [by eapply sent_well_formed_after|].
      intros _. apply grows_sent in F. rewrite F. by apply Hok.
    + exact (submit_well_formed _ _ _ _ _ _ Hm2 Hest Hrun).
  - use_frame Hrun (grows not_submit) F. by apply sending_raise.
Qed.

(** X12: [approve] hands at most one transaction to the node, and that
    transaction is complete in the same sense: sender, chain id, nonce, gas
    limit, and the fee fields of the fee model of the chain, although the
    fee is computed twice, once by [_prepare_tx] and once more by
    [approve] itself. *)
Theorem approve_submits_well_formed token amount spender s r s'
    (Hrun : approve w self token amount spender s = (r, s')) :
  sent_well_formed self s s'.
Proof.
  unfold approve in Hrun.
  destruct token as [|t|a];
    try solve [use_frame Hrun (grows not_submit) F; by apply sent_well_formed_quiet].
  destruct (type_token t);
    try solve [use_frame Hrun (grows not_submit) F; by apply sent_well_formed_quiet].
  pass Hrun. pass Hrun.
  destruct (_ && _);
    [use_frame Hrun (grows not_submit) F; by apply sent_well_formed_quiet|].
  destruct (_ && _);
    [use_frame Hrun (grows not_submit) F; by apply sent_well_formed_quiet|].
  pass Hrun. apply _prepare_tx_prepared in Hm1.
  pass Hrun. apply (_get_fee_prepared _ _ _ _ _ _ Hm1) in Hm2.
  assert (Hp : prepared_in self x6
                 (build_transaction (Token_address t)
                    (ApproveCall (spender_address spender) (wei x1)) x5)).
  { eapply prepared_in_ext; [|exact Hm2]. intros k ? ? ? ?.
    unfold build_transaction. by rewrite !lookup_insert_ne. }
  apply bind_run in Hrun as [(tx1 & s5 & Hest & Hrun) | (e & Hrun & ->)].
  - apply bind_run in Hrun as [(h & s6 & Hsend & Hrun) | (e & Hrun & ->)].
    + destruct (submit_well_formed _ _ _ _ _ _ Hp Hest Hsend) as [Hwf _].
      use_frame Hrun (grows not_submit) F. use_kept Hrun K.
      by eapply sent_well_formed_after.
    + by destruct (submit_well_formed _ _ _ _ _ _ Hp Hest Hrun).
  - use_frame Hrun (grows not_submit) F. by apply sent_well_formed_quiet.
Qed.

End Submitted.

(** A first transfer on the sample chain, which turns out to be an
    EIP-1559 chain: one transaction, with the fields of type 0x2. *)
Lemma send_token_submits_one_well_formed_witness :
  let w := sample_world 3 100 300 50 (always 3) in
  let s := sample_state None in
  let run := send_token w sample_self "0xB0b" (AmtObj (mkAmount 10 18)) TokNone s in
  is_Ok run.1 = true /\
  length (sent (trace run.2)) = 1%nat /\
  is_eip1559 (chains run.2 !!! chain sample_self) = Some true /\
  sent_well_formed sample_self s run.2.
Proof.
  intros w s run.
  destruct (send_token_submits_one_well_formed w sample_self "0xB0b"
              (AmtObj (mkAmount 10 18)) TokNone s run.1 run.2 (surjective_pairing run))
    as [Hwf Hok].
  assert (Hr : is_Ok run.1 = true) by (vm_compute; reflexivity).
  split; [exact Hr|]. split; [exact (Hok Hr)|].
  split; [vm_compute; reflexivity | exact Hwf].
Defined.

(** An approval of 100 over an allowance of 50 on a legacy chain. *)
Lemma approve_submits_well_formed_witness :
  let w := sample_world 3 100 300 50 (always 3) in
  let s := sample_state (Some false) in
  let run := approve w sample_self (TokObj usdt) (AmtObj (mkAmount 100 6)) (SpStr "0xSp") s in
  length (sent (trace run.2)) = 1%nat /\ sent_well_formed sample_self s run.2.
Proof.
  intros w s run. split; [vm_compute; reflexivity|].
  exact (approve_submits_well_formed w sample_self (TokObj usdt) (AmtObj (mkAmount 100 6))
           (SpStr "0xSp") s run.1 run.2 (surjective_pairing run)).
Defined.

(** * What the validation of a native transfer writes *)

Section ValidationWrites.

Context (w : World) (self : Onchain).

Lemma _get_l1_fee_data tx s a tx1 s1 :
  _get_l1_fee w self tx s = (Ok (a, tx1), s1) ->
  tx1 !! "data"
  = if decide (chain_name (chains s !!! chain self) = "op")
    then Some (default (VStr "0x") (tx !! "data"))
    else tx !! "data".
Proof.
  unfold _get_l1_fee. intros H. run_prims. case_decide.
  - run_bind H. run_prims. by rewrite lookup_insert_eq.
  - by run_prims.
Qed.

(** X13: [_validate_native_transfer_value] works on the dictionary of its
    caller.  When it returns, the only entry it may have rewritten is
    [value], which still is an integer; on the chain named op it has also
    put the entry [data], with the default '0x' when there was none, so
    that a native transfer on that chain is submitted with this entry; on
    every other chain [data] is as it was.  A validation that returns has
    signed and sent nothing. *)
Theorem validation_writes_value_and_data tx s tx' s'
    (Hrun : _validate_native_transfer_value w self tx s = (Ok tx', s')) :
  (forall k, k ≠ "value" -> k ≠ "data" -> tx' !! k = tx !! k) /\
  tx' !! "data"
  = (if decide (chain_name (chains s !!! chain self) = "op")
     then Some (default (VStr "0x") (tx !! "data"))
     else tx !! "data") /\
  (exists v v', tx !! "value" = Some (VInt v) /\ tx' !! "value" = Some (VInt v')) /\
  sent (trace s') = sent (trace s) /\
  count is_submit (trace s') = count is_submit (trace s).
Proof.
  split; [|split; [|split; [|split]]].
  - intros k Hv Hd. by eapply _validate_native_transfer_value_keeps_keys.
  - unfold _validate_native_transfer_value in Hrun.
    run_bind Hrun.
    assert (s0 = s) as ->.
    { destruct (tx !! "value"); [|by run_prims]. unfold lift in Hrun0. by simplify_eq. }
    run_bind Hrun. destruct a0 as [fee tx1]. cbn [fst snd] in Hrun.
    unfold native_fee_spend in Hrun1. run_bind Hrun1. destruct a0 as [l1 tx2].
    cbn [fst snd] in Hrun1. apply _get_l1_fee_data in Hrun2.
    repeat (run_bind Hrun1). run_prims.
    run_bind Hrun. destruct (0 <=? _); [by run_prims|].
    repeat (run_bind Hrun). destruct (0 <? _); run_prims.
    by rewrite lookup_insert_ne.
  - unfold _validate_native_transfer_value in Hrun.
    run_bind Hrun.
    assert (Hv : tx !! "value" = Some (VInt a)).
    { destruct (tx !! "value") as [[v| |]|]; try by run_prims.
      all: unfold lift in Hrun0; cbn in Hrun0; by simplify_eq. }
    run_bind Hrun. destruct a0 as [fee tx1]. cbn [fst snd] in Hrun.
    apply (native_fee_spend_keeps _ _ _ _ _ _ _ "value") in Hrun1; [|done].
    run_bind Hrun. destruct (0 <=? _).
    + run_prims. exists a, a. by rewrite Hrun1.
    + repeat (run_bind Hrun). destruct (0 <? _); run_prims.
      eexists a, _. split; [done|]. by rewrite lookup_insert_eq.
  - use_frame Hrun (grows not_submit) F. by apply grows_sent.
  - use_frame Hrun (grows not_submit) F. by apply grows_count.
Qed.

End ValidationWrites.

Lemma validation_writes_value_and_data_witness :
  let w := sample_world 3 100 300 50 (always 3) in
  let run := _validate_native_transfer_value w sample_self sample_tx
               (sample_state (Some false)) in
  run.1 = Ok (<["value" := VInt 88]> sample_tx) /\
  (<["value" := VInt 88]> sample_tx : TxParams) !! "data" = None.
Proof.
  intros w run.
  assert (Hr : run.1 = Ok (<["value" := VInt 88]> sample_tx))
    by (vm_compute; reflexivity).
  split; [exact Hr|].
  destruct (validation_writes_value_and_data w sample_self sample_tx
              (sample_state (Some false)) (<["value" := VInt 88]> sample_tx) run.2)
    as (_ & Hd & _).
  { rewrite <- Hr. apply surjective_pairing. }
  rewrite Hd. vm_compute. reflexivity.
Defined.

(** * The fee model, asked for directly *)

Section IsEip1559.

Context (w : World) (self : Onchain).

Lemma any_spec (l : list Z) : any l = true <-> exists x, x ∈ l /\ x <> 0.
Proof.
  unfold any. rewrite existsb_exists. split.
  - intros (x & Hin & Hx). exists x. split; [by apply list_elem_of_In|].
    intros ->. done.
  - intros (x & Hin & Hx). exists x. split; [by apply list_elem_of_In|].
    by apply negb_true_iff, Z.eqb_neq.
Qed.

(** X14: [is_eip_1559] asks the node for one fee history of 50 blocks and
    answers whether some base fee of it is non-zero; it neither reads nor
    sets the fee model cached on the Chain object.  On an answer that has
    no base fees it raises KeyError, where the classification made by
    [_get_fee] on the same answer takes the chain for a legacy one. *)
Theorem is_eip_1559_and_the_cached_model s fh
    (Hanswer : rpc_fee_history w (chain self) (tick s) = Some fh) :
  is_eip_1559 w self s
  = (match baseFeePerGas fh with
     | Some base_fee => Ok (any base_fee)
     | None => Raise (mkExc KeyError "baseFeePerGas")
     end,
     push (EvRpc (chain self) (Rpc_fee_history 50 "latest" [])) s) /\
  (forall base_fee, baseFeePerGas fh = Some base_fee ->
     (any base_fee = true <-> exists x, x ∈ base_fee /\ x <> 0)) /\
  (forall tx r s',
     is_eip1559 (chains s !!! chain self) = None ->
     _get_fee w self tx s = (r, s') ->
     is_eip1559 (chains s' !!! chain self)
     = Some (match baseFeePerGas fh with
             | Some base_fee => any base_fee
             | None => false
             end)).
Proof.
  split; [|split].
  - unfold is_eip_1559. rewrite (bind_Ok _ _ _ _ _ (rpc_Some _ _ _ _ _ Hanswer)).
    unfold bind, answer, ret, raise.
    by destruct (baseFeePerGas fh) as [l|]; [destruct (any l)|].
  - intros base_fee _. apply any_spec.
  - intros tx r s' Hflag H. unfold _get_fee in H.
    rewrite bind_get_chain, Hflag in H. unfold fetch_fee_history in H.
    run_bind H.
    + run_bind Hrun. rewrite (rpc_Some _ _ _ _ _ Hanswer) in Hrun0.
      injection Hrun0 as <- <-.
      cbv [bind get_chain put_chain ret] in Hrun. injection Hrun as <- <-.
      use_frame H same_chains F. unfold same_chains in F. rewrite F. cbn [chains push].
      rewrite lookup_total_insert_eq. cbn. by destruct (baseFeePerGas fh).
    + run_bind H; [run_prims|].
      rewrite (rpc_Some _ _ _ _ _ Hanswer) in H. done.
Qed.

End IsEip1559.

Lemma is_eip_1559_and_the_cached_model_witness :
  let w := sample_world 3 100 300 50 (always 3) in
  let s := sample_state None in
  (is_eip_1559 w sample_self s).1 = Ok true /\
  chains (is_eip_1559 w sample_self s).2 = chains s.
Proof.
  intros w s.
  destruct (is_eip_1559_and_the_cached_model w sample_self s
              (mkFeeHistory (Some [5; 7]) (Some [[8]; [0]; [2]; [6]; [4]]) true))
    as (Hrun & _); [reflexivity|].
  rewrite Hrun. split; reflexivity.
Defined.

(** * Revocations that cost nothing *)

Section SpentAllowances.

Context (w : World) (self : Onchain).

Context (Hzero : forall d, number_to_wei w (NInt 0) d = 0).
Context (Hallowance : forall c t token owner spender,
           rpc_allowance w c t token owner spender = Some 0).

Lemma approve_zero_quiet (t : Token) spender s r s' :
  approve w self (TokObj t) (AmtNum (NInt 0)) spender s = (r, s') ->
  r = Ok tt /\ grows not_submit s s'.
Proof.
  unfold approve. intros H. destruct (type_token t) eqn:Ht; [by run_prims|].
  rewrite (bind_Ok _ _ _ _ _ (_get_allowance_run w self t spender s 0 Ht
                                (Hallowance _ _ _ _ _))) in H.
  rewrite bind_ret in H. unfold Amount_of_number in H. cbn [wei Amount_wei] in H.
  rewrite Hzero in H. cbn in H. run_prims. split; [done|].
  eexists [_]. split; [reflexivity|]. by repeat constructor.
Qed.

Lemma revoke_each_zero_quiet items : forall cache s r s',
  revoke_each w self items cache s = (r, s') -> grows not_submit s s'.
Proof.
  induction items as [|item items IH]; intros cache s r s' H; cbn [revoke_each] in H.
  - run_prims. reflexivity.
  - assert (Hone : forall r1 s1, revoke_one w self item cache s = (r1, s1) ->
                                 grows not_submit s s1).
    { intros r1 s1 H1. unfold revoke_one in H1. run_bind H1.
      - use_frame Hrun (grows not_submit) F. run_bind H1.
        + apply approve_zero_quiet in Hrun0 as [_ F2]. run_prims. by etrans.
        + apply approve_zero_quiet in H1 as [_ F2]. by etrans.
      - use_frame H1 (grows not_submit) F. done. }
    run_bind H.
    + etrans; [by eapply Hone | by eapply IH].
    + by eapply Hone.
Qed.

(** X15: a pair whose allowance is 0 by now is revoked without a
    transaction: [approve] with amount 0 reads the allowance and returns.
    So when none of the approvals found in the logs is still open,
    [remove_approves] signs and sends nothing, however many logs there
    are. *)
Theorem remove_approves_skips_spent_allowances s r s'
    (Hrun : remove_approves w self s = (r, s')) :
  sent (trace s') = sent (trace s) /\
  count is_submit (trace s') = count is_submit (trace s).
Proof.
  assert (F : grows not_submit s s').
  { unfold remove_approves in Hrun. case_decide.
    - use_frame Hrun (grows not_submit) F. done.
    - run_bind Hrun.
      + use_frame_more Hrun0 (grows not_submit) F. etrans; [exact F|].
        destruct a as [|log logs]; [use_frame Hrun (grows not_submit) F2; done|].
        run_bind Hrun.
        * unfold lift in Hrun1. injection Hrun1 as _ <-.
          by eapply revoke_each_zero_quiet.
        * unfold lift in Hrun. injection Hrun as _ <-. reflexivity.
      + use_frame_more Hrun (grows not_submit) F. done. }
  split; [by apply grows_sent | by apply grows_count].
Qed.

End SpentAllowances.

Lemma remove_approves_skips_spent_allowances_witness :
  let w := sample_world 3 100 300 0 (always 3) in
  let run := remove_approves w sample_self (sample_state (Some false)) in
  run.1 = Ok tt /\ sent (trace run.2) = [].
Proof.
  intros w run. split; [vm_compute; reflexivity|].
  destruct (remove_approves_skips_spent_allowances w sample_self) with
    (s := sample_state (Some false)) (r := run.1) (s' := run.2) as [H _].
  - intros d. cbn. lia.
  - reflexivity.
  - apply surjective_pairing.
  - exact H.
Defined.

(** * A native token of another chain *)

Section NativeTokenChain.

Context (w : World) (self : Onchain).

(** X16: the chain of a native Token object is looked at only when the
    whole balance is to be sent.  With an explicit amount, [send_token]
    never reads it: a native Token object that belongs to another chain is
    transferred as the native token of the chain of the connection, in
    the very run that the token of this chain gives.  Without an amount
    the same object is refused with the cross-chain error before any
    request is sent. *)
Theorem native_token_chain_read_only_to_send_all (t : Token) to_address s
    (Htype : type_token t = NATIVE)
    (Hchain : Token_chain t ≠ chain self) :
  (forall amount, amount ≠ AmtNone ->
     send_token w self to_address amount (TokObj t) s
     = send_token w self to_address amount
         (TokObj (mkToken (Token_symbol t) (Token_address t) (chain self)
                    (Token_decimals t) (type_token t))) s) /\
  (exists s', send_token w self to_address AmtNone (TokObj t) s
              = (Raise CrossChainTokenMismatch, s') /\
              count is_network (trace s') = count is_network (trace s)).
Proof.
  split.
  - intros amount Ha. unfold send_token. rewrite !bind_ret.
    destruct amount as [|a|n]; [done| |]; rewrite !bind_ret; cbn [type_token];
      by rewrite Htype.
  - destruct (get_balance_cross_chain w self t None s Hchain) as (s' & Hb & Hc).
    exists s'. split; [|done]. unfold send_token. rewrite bind_ret.
    by rewrite (bind_Raise _ _ _ _ _ (bind_Raise _ _ _ _ _ Hb)).
Qed.

End NativeTokenChain.

Lemma native_token_chain_read_only_to_send_all_witness :
  let w := sample_world 3 100 300 50 (always 3) in
  let s := sample_state (Some false) in
  let run := send_token w sample_self "0xB0b" (AmtObj (mkAmount 10 18)) (TokObj bnb) s in
  is_Ok run.1 = true /\
  (send_token w sample_self "0xB0b" AmtNone (TokObj bnb) s).1
  = Raise CrossChainTokenMismatch.
Proof.
  intros w s run. split; [vm_compute; reflexivity|].
  destruct (native_token_chain_read_only_to_send_all w sample_self bnb "0xB0b" s)
    as (_ & s' & H & _); [reflexivity | vm_compute; lia |].
  by rewrite H.
Defined.
